(** * create_custom_fields: a shallow embedding of the custom-field creation
    tool of mcp-provider-dx-core (src/tools/create_custom_fields.ts).

    The tool builds one CustomField metadata payload per field definition,
    submits them in one [metadata.create] call, partitions the outcomes,
    grants field-level security to permission sets or profiles, and renders
    a textual summary.  JavaScript values are modelled by [JV]; the remote
    metadata service is an abstract state machine (Section variables), and
    the tool's effects run in a state-and-exception monad over a [World]. *)

From Stdlib Require Import String Ascii List Bool Arith Lia QArith Permutation.
Import ListNotations.
Open Scope list_scope.
Open Scope string_scope.
Set Warnings "-register-all".

(* ------------------------------------------------------------------ *)
(** ** JavaScript values and plain objects *)

(** A JavaScript value as it can occur in the payloads of this tool.
    [JFun name] is a native function found on [Object.prototype]
    (e.g. [toString]); [JObjProto] is [Object.prototype] itself, the value
    of the inherited [__proto__] accessor. *)
Inductive JV : Type :=
| JUndef
| JStr (s : string)
| JBool (b : bool)
| JNum (q : Q)
| JArr (xs : list JV)
| JObj (kvs : list (string * JV))
| JFun (name : string)
| JObjProto.

(** An object literal / [Record<string, unknown>], in insertion order. *)
Definition JRecord := list (string * JV).

(** Property read of an own property. *)
Fixpoint js_get (o : JRecord) (k : string) : option JV :=
  match o with
  | [] => None
  | (k', v) :: o' => if String.eqb k k' then Some v else js_get o' k
  end.

(** [o[k] = v]: an existing key keeps its position, a new key is appended. *)
Fixpoint js_set (o : JRecord) (k : string) (v : JV) : JRecord :=
  match o with
  | [] => [(k, v)]
  | (k', v') :: o' =>
      if String.eqb k k' then (k', v) :: o' else (k', v') :: js_set o' k v
  end.

(** Object spread [{...base, ...src}]: the properties of [src] are assigned
    in order on top of [base]. *)
Definition js_spread (base src : JRecord) : JRecord :=
  fold_left (fun acc kv => js_set acc (fst kv) (snd kv)) src base.

(** [x ?? d] for an optional input of the zod schema (never [null]). *)
Definition nullish {A} (x : option A) (d : A) : A :=
  match x with Some a => a | None => d end.

Definition opt_str (x : option string) : JV :=
  match x with Some s => JStr s | None => JUndef end.

Definition opt_num (x : option Q) : JV :=
  match x with Some q => JNum q | None => JUndef end.

(** [s.endsWith(suf)], read right to left. *)
Fixpoint list_prefixb (p l : list ascii) : bool :=
  match p, l with
  | [], _ => true
  | a :: p', b :: l' => Ascii.eqb a b && list_prefixb p' l'
  | _ :: _, [] => false
  end.

Definition endsWith (s suf : string) : bool :=
  list_prefixb (rev (list_ascii_of_string suf)) (rev (list_ascii_of_string s)).

(** The double-quote character used inside template literals. *)
Definition dq : string := String (ascii_of_nat 34) EmptyString.

(** [xs.join(sep)]. *)
Fixpoint join (sep : string) (xs : list string) : string :=
  match xs with
  | [] => ""
  | [x] => x
  | x :: xs' => x ++ sep ++ join sep xs'
  end.

(* ------------------------------------------------------------------ *)
(** ** Input schema *)

Inductive FieldType : Type :=
| Text | Number | Checkbox | Date | DateTime | Email | Phone | Url
| Currency | Percent | TextArea | LongTextArea | RichTextArea
| Picklist | MultiselectPicklist | Lookup | MasterDetail.

(** The string value of the zod enum [fieldTypeEnum]. *)
Definition fieldTypeName (t : FieldType) : string :=
  match t with
  | Text => "Text" | Number => "Number" | Checkbox => "Checkbox"
  | Date => "Date" | DateTime => "DateTime" | Email => "Email"
  | Phone => "Phone" | Url => "Url" | Currency => "Currency"
  | Percent => "Percent" | TextArea => "TextArea"
  | LongTextArea => "LongTextArea" | RichTextArea => "RichTextArea"
  | Picklist => "Picklist" | MultiselectPicklist => "MultiselectPicklist"
  | Lookup => "Lookup" | MasterDetail => "MasterDetail"
  end.


Inductive DeleteConstraint : Type := SetNull | Restrict | Cascade.

Definition deleteConstraintName (d : DeleteConstraint) : string :=
  match d with SetNull => "SetNull" | Restrict => "Restrict" | Cascade => "Cascade" end.

(** [picklistValueSchema]. *)
Record PicklistValue : Type := {
  pv_value : string;
  pv_isDefault : option bool
}.

(** [fieldDefinitionSchema] ([FieldDefinition]); JS numbers as [Q]. *)
Record FieldDefinition : Type := {
  objectApiName : string;
  fieldApiName : string;
  label : string;
  type : FieldType;
  description : option string;
  helpText : option string;
  required : option bool;
  unique : option bool;
  externalId : option bool;
  length : option Q;
  precision : option Q;
  scale : option Q;
  visibleLines : option Q;
  picklistValues : option (list PicklistValue);
  referenceTo : option string;
  relationshipName : option string;
  relationshipLabel : option string;
  deleteConstraint : option DeleteConstraint
}.

(** [permissionAssignmentSchema] ([PermissionAssignment]). *)
Record PermissionAssignment : Type := {
  permissionSetOrProfile : string;
  readable : bool;
  editable : bool
}.

(* ------------------------------------------------------------------ *)
(** ** mapFieldType *)

(** The own properties of the object literal [typeMap]. *)
Definition typeMap : list (string * string) :=
  [("Text", "Text"); ("Number", "Number"); ("Checkbox", "Checkbox");
   ("Date", "Date"); ("DateTime", "DateTime"); ("Email", "Email");
   ("Phone", "Phone"); ("Url", "Url"); ("Currency", "Currency");
   ("Percent", "Percent"); ("TextArea", "TextArea");
   ("LongTextArea", "LongTextArea"); ("RichTextArea", "Html");
   ("Picklist", "Picklist"); ("MultiselectPicklist", "MultiselectPicklist");
   ("Lookup", "Lookup"); ("MasterDetail", "MasterDetail")].

(** The function-valued properties an object literal inherits from
    [Object.prototype]. *)
Definition object_prototype_methods : list string :=
  ["constructor"; "hasOwnProperty"; "isPrototypeOf"; "propertyIsEnumerable";
   "toString"; "toLocaleString"; "valueOf"; "__defineGetter__";
   "__defineSetter__"; "__lookupGetter__"; "__lookupSetter__"].

Fixpoint assoc (k : string) (l : list (string * string)) : option string :=
  match l with
  | [] => None
  | (k', v) :: l' => if String.eqb k k' then Some v else assoc k l'
  end.

(** [typeMap[type]]: own property first, then the prototype chain. *)
Definition typeMap_get (k : string) : JV :=
  match assoc k typeMap with
  | Some v => JStr v
  | None =>
      if String.eqb k "__proto__" then JObjProto
      else if existsb (String.eqb k) object_prototype_methods then JFun k
      else JUndef
  end.

(** [return typeMap[type] ?? type;] *)
Definition mapFieldType (ty : string) : JV :=
  match typeMap_get ty with
  | JUndef => JStr ty
  | v => v
  end.

(* ------------------------------------------------------------------ *)
(** ** buildFieldMetadata *)

(** One entry of [valueSetDefinition.value]:
    [{ fullName: pv.value, default: pv.isDefault ?? false, label: pv.value }]. *)
Definition picklistEntry (pv : PicklistValue) : JV :=
  JObj [("fullName", JStr (pv_value pv));
        ("default", JBool (nullish (pv_isDefault pv) false));
        ("label", JStr (pv_value pv))].

(** [metadata.valueSet = { restricted: true, valueSetDefinition: ... }]. *)
Definition valueSetOf (pvs : list PicklistValue) : JV :=
  JObj [("restricted", JBool true);
        ("valueSetDefinition",
          JObj [("sorted", JBool false);
                ("value", JArr (map picklistEntry pvs))])].

(** The object literal the function starts from. *)
Definition baseMetadata (field : FieldDefinition) : JRecord :=
  [("label", JStr (label field));
   ("type", mapFieldType (fieldTypeName (type field)));
   ("description", opt_str (description field));
   ("inlineHelpText", opt_str (helpText field));
   ("required", JBool (nullish (required field) false));
   ("unique", JBool (nullish (unique field) false));
   ("externalId", JBool (nullish (externalId field) false))].

(** The [switch (field.type)] of type-specific properties. *)
Definition typeSpecific (field : FieldDefinition) (m : JRecord) : JRecord :=
  match type field with
  | Text =>
      js_set m "length" (JNum (nullish (length field) 255))
  | Number | Currency | Percent =>
      js_set (js_set m "precision" (JNum (nullish (precision field) 18)))
             "scale" (JNum (nullish (scale field) 2))
  | TextArea =>
      js_set m "length" (JNum (nullish (length field) 255))
  | LongTextArea | RichTextArea =>
      js_set (js_set m "length" (JNum (nullish (length field) 32768)))
             "visibleLines" (JNum (nullish (visibleLines field) 6))
  | Picklist | MultiselectPicklist =>
      let m1 :=
        match picklistValues field with
        | Some ((_ :: _) as pvs) => js_set m "valueSet" (valueSetOf pvs)
        | _ => m
        end in
      match type field with
      | MultiselectPicklist =>
          js_set m1 "visibleLines" (JNum (nullish (visibleLines field) 4))
      | _ => m1
      end
  | Lookup | MasterDetail =>
      let m1 := js_set m "referenceTo" (opt_str (referenceTo field)) in
      let m2 := js_set m1 "relationshipName"
                  (JStr (nullish (relationshipName field) (fieldApiName field ++ "s"))) in
      let m3 := js_set m2 "relationshipLabel"
                  (JStr (nullish (relationshipLabel field) (label field ++ "s"))) in
      match type field with
      | Lookup =>
          js_set m3 "deleteConstraint"
            (JStr (deleteConstraintName (nullish (deleteConstraint field) SetNull)))
      | _ => m3
      end
  | Checkbox | Date | DateTime | Email | Phone | Url => m
  end.

Definition is_undefined (v : JV) : bool :=
  match v with JUndef => true | _ => false end.

(** [Object.fromEntries(Object.entries(metadata).filter(([_, v]) => v !== undefined))] *)
Definition buildFieldMetadata (field : FieldDefinition) : JRecord :=
  filter (fun kv => negb (is_undefined (snd kv)))
         (typeSpecific field (baseMetadata field)).

(** [fullFieldName]: the [__c] suffix is appended unless already present. *)
Definition fullFieldName (field : FieldDefinition) : string :=
  if endsWith (fieldApiName field) "__c" then fieldApiName field
  else fieldApiName field ++ "__c".

(** One element of [metadataItems]:
    [{ type: 'CustomField', fullName: ..., ...this.buildFieldMetadata(field) }]. *)
Definition metadataItem (field : FieldDefinition) : JRecord :=
  js_spread [("type", JStr "CustomField");
             ("fullName", JStr (objectApiName field ++ "." ++ fullFieldName field))]
            (buildFieldMetadata field).

(** The [fullName] a field is submitted under. *)
Definition itemFullName (field : FieldDefinition) : string :=
  objectApiName field ++ "." ++ fullFieldName field.

(* ------------------------------------------------------------------ *)
(** ** The metadata service: calls and replies *)

(** The [metadata.update] target kinds used by [assignFieldPermissions]. *)
Inductive UpdateKind : Type := PermissionSet | Profile.

(** [{ field, readable, editable }]. *)
Record FieldPermission : Type := {
  fp_field : string;
  fp_readable : bool;
  fp_editable : bool
}.

(** [{ fullName: perm.permissionSetOrProfile, fieldPermissions }]. *)
Record UpdateItem : Type := {
  ui_fullName : string;
  ui_fieldPermissions : list FieldPermission
}.

(** An element of [result.errors]: [undefined] or an object whose
    [message] may be missing. *)
Inductive ErrVal : Type :=
| ErrUndefined
| ErrObject (message : option string).

(** [result.errors] is a single error or an array of them. *)
Inductive ErrorsVal : Type :=
| ErrorsOne (e : ErrVal)
| ErrorsMany (es : list ErrVal).

(** A SaveResult: [{ fullName, success, errors }]. *)
Record SaveResult : Type := {
  sr_fullName : string;
  sr_success : bool;
  sr_errors : ErrorsVal
}.

(** What an awaited [metadata.create] / [metadata.update] call does: it
    rejects with a message, or resolves to one result or to an array. *)
Inductive Reply : Type :=
| Throws (msg : string)
| One (r : SaveResult)
| Many (rs : list SaveResult).

(** The observable calls of one invocation, with the reply received. *)
Inductive Call : Type :=
| CallResolve (usernameOrAlias : string)
| CallCreate (items : list JRecord) (rep : Reply)
| CallUpdate (k : UpdateKind) (item : UpdateItem) (rep : Reply).

(** [CallToolResult] as built by [textResponse(text, isError)]. *)
Record CallToolResult : Type := {
  content_text : string;
  isError : bool
}.

(** Modelled from the spec: [textResponse] of [../shared/utils.js] (not in
    this source tree), which yields the text report together with the
    caller-visible error flag it is given. *)
Definition textResponse (text : string) (isErr : bool) : CallToolResult :=
  {| content_text := text; isError := isErr |}.

(** [createCustomFieldsParams] ([InputArgs]). *)
Record InputArgs : Type := {
  fields : list FieldDefinition;
  permissions : option (list PermissionAssignment);
  usernameOrAlias : option string;
  directory : string
}.

Definition nl : string := String (ascii_of_nat 10) EmptyString.

(** Decimal rendering of a non-negative count in a template literal. *)
Fixpoint digits_aux (fuel n : nat) (acc : string) : string :=
  match fuel with
  | O => acc
  | S fuel' =>
      let acc' := String (ascii_of_nat (48 + n mod 10)%nat) acc in
      if (n <? 10)%nat then acc' else digits_aux fuel' (n / 10)%nat acc'
  end.

Definition nat_to_string (n : nat) : string := digits_aux (S n) n "".

(** [buildResultSummary]. *)
Definition buildResultSummary (successFields failedFields : list string)
    (permissionResults : string) : string :=
  let parts1 :=
    match successFields with
    | [] => []
    | _ => ["Successfully created " ++ nat_to_string (List.length successFields) ++ " field(s):";
            join nl (map (fun f => "  ✓ " ++ f) successFields)]
    end in
  let parts2 :=
    match failedFields with
    | [] => []
    | _ => [nl ++ "Failed to create " ++ nat_to_string (List.length failedFields) ++ " field(s):";
            join nl (map (fun f => "  ✗ " ++ f) failedFields)]
    end in
  let parts3 :=
    match permissionResults with
    | EmptyString => []
    | _ => [nl ++ "Permission assignments:"; permissionResults]
    end in
  join nl (parts1 ++ parts2 ++ parts3).

(* ------------------------------------------------------------------ *)
(** ** The tool's effects *)

Section Tool.

(** The remote org: its state and the two metadata API calls. *)
Variable Srv : Type.
Variable srv_create : Srv -> list JRecord -> Reply * Srv.
Variable srv_update : Srv -> UpdateKind -> UpdateItem -> Reply * Srv.

(** The state one invocation acts on: the process working directory, the
    directories that exist, the usernames/aliases the org service can
    resolve, the remote org, and the log of remote calls. *)
Record World : Type := {
  w_cwd : string;
  w_dirs : list string;
  w_orgs : list string;
  w_srv : Srv;
  w_log : list Call
}.

(** An async computation: on exit it has thrown (with the message of the
    error) or returned a value. *)
Definition M (A : Type) : Type := World -> (string + A) * World.

Definition ret {A} (a : A) : M A := fun w => (inr a, w).

Definition bind {A B} (m : M A) (k : A -> M B) : M B :=
  fun w => match m w with
           | (inl e, w') => (inl e, w')
           | (inr a, w') => k a w'
           end.

Definition throw {A} (msg : string) : M A := fun w => (inl msg, w).

(** [try { m } catch (e) { h(e.message) }] *)
Definition try_catch {A} (m : M A) (h : string -> M A) : M A :=
  fun w => match m w with
           | (inl e, w') => h e w'
           | r => r
           end.

Local Notation "x <- m ;; k" := (bind m (fun x => k))
  (at level 61, m at next level, right associativity).

Definition log_call (c : Call) (w : World) : World :=
  {| w_cwd := w_cwd w; w_dirs := w_dirs w; w_orgs := w_orgs w;
     w_srv := w_srv w; w_log := w_log w ++ [c] |}.

Definition with_srv (s : Srv) (w : World) : World :=
  {| w_cwd := w_cwd w; w_dirs := w_dirs w; w_orgs := w_orgs w;
     w_srv := s; w_log := w_log w |}.

Definition await_reply (rep : Reply) : M Reply :=
  match rep with
  | Throws msg => throw msg
  | _ => ret rep
  end.

(** [await connection.metadata.create('CustomField', items)]. *)
Definition metadata_create (items : list JRecord) : M Reply :=
  fun w => let (rep, s') := srv_create (w_srv w) items in
           await_reply rep (log_call (CallCreate items rep) (with_srv s' w)).

(** [await connection.metadata.update(kind, item)]. *)
Definition metadata_update (k : UpdateKind) (item : UpdateItem) : M Reply :=
  fun w => let (rep, s') := srv_update (w_srv w) k item in
           await_reply rep (log_call (CallUpdate k item rep) (with_srv s' w)).

(** Modelled from the spec: [services.getOrgService().getConnection] (the
    org service is not in this source tree) resolves a username or alias to
    a connection and fails with a resolution error when it is unknown. *)
Definition getConnection (u : string) : M unit :=
  fun w => let w' := log_call (CallResolve u) w in
           if existsb (String.eqb u) (w_orgs w) then (inr tt, w')
           else (inl ("No authorization information found for " ++ u), w').

(** [process.chdir(dir)]: Node changes the working directory, or throws
    when the directory does not exist. *)
Definition chdir (dir : string) : M unit :=
  fun w => if existsb (String.eqb dir) (w_dirs w)
           then (inr tt, {| w_cwd := dir; w_dirs := w_dirs w; w_orgs := w_orgs w;
                            w_srv := w_srv w; w_log := w_log w |})
           else (inl ("ENOENT: no such file or directory, chdir '" ++ w_cwd w ++ "' -> '"
                      ++ dir ++ "'"), w).

(* ------------------------------------------------------------------ *)
(** ** deployFieldsAndPermissions *)

(** [Array.isArray(deployResult) ? deployResult : [deployResult]] *)
Definition results_of (rep : Reply) : list SaveResult :=
  match rep with
  | One r => [r]
  | Many rs => rs
  | Throws _ => []
  end.

(** [Array.isArray(result.errors) ? result.errors : [result.errors]] *)
Definition errors_list (e : ErrorsVal) : list ErrVal :=
  match e with
  | ErrorsOne x => [x]
  | ErrorsMany xs => xs
  end.

(** [(e: any) => e.message]; [join] renders an undefined message as "". *)
Definition message_strict (e : ErrVal) : M string :=
  match e with
  | ErrUndefined => throw "Cannot read properties of undefined (reading 'message')"
  | ErrObject m => ret (nullish m EmptyString)
  end.

Fixpoint mapM {A B} (f : A -> M B) (xs : list A) : M (list B) :=
  match xs with
  | [] => ret []
  | x :: xs' => y <- f x;; ys <- mapM f xs';; ret (y :: ys)
  end.

(** The [for (const result of results)] loop filling [successFields] and
    [failedFields]. *)
Fixpoint partition_loop (results : list SaveResult)
    (successFields failedFields : list string) : M (list string * list string) :=
  match results with
  | [] => ret (successFields, failedFields)
  | result :: rest =>
      if sr_success result then
        partition_loop rest (successFields ++ [sr_fullName result]) failedFields
      else
        msgs <- mapM message_strict (errors_list (sr_errors result));;
        partition_loop rest successFields
          (failedFields ++ [sr_fullName result ++ ": " ++ join ", " msgs])
  end.

(* ------------------------------------------------------------------ *)
(** ** assignFieldPermissions *)

Definition fieldPermissionsOf (fieldNames : list string)
    (perm : PermissionAssignment) : list FieldPermission :=
  map (fun fieldName => {| fp_field := fieldName; fp_readable := readable perm;
                           fp_editable := editable perm |}) fieldNames.

Definition updateItemOf (perm : PermissionAssignment)
    (fieldPermissions : list FieldPermission) : UpdateItem :=
  {| ui_fullName := permissionSetOrProfile perm;
     ui_fieldPermissions := fieldPermissions |}.

(** [Array.isArray(r) ? r[0] : r], then reading [.success] of it. *)
Definition first_result (rep : Reply) : M SaveResult :=
  match rep with
  | One r => ret r
  | Many (r :: _) => ret r
  | Many [] => throw "Cannot read properties of undefined (reading 'success')"
  | Throws msg => throw msg
  end.

(** [(e: any) => e?.message], rendered by [join]. *)
Definition message_opt (e : ErrVal) : string :=
  match e with
  | ErrUndefined => EmptyString
  | ErrObject m => nullish m EmptyString
  end.

Definition failureLine (name msg : string) : string :=
  "✗ " ++ dq ++ name ++ dq ++ ": " ++ msg.

Definition permSetLine (name : string) : string :=
  "✓ Permission Set " ++ dq ++ name ++ dq ++ ": assigned".

Definition profileLine (name : string) : string :=
  "✓ Profile " ++ dq ++ name ++ dq ++ ": assigned".

(** The Profile attempt, written out twice in the source (lines 320-331
    and 335-346) with the same text. *)
Definition profileAttempt (perm : PermissionAssignment)
    (fieldPermissions : list FieldPermission) : M string :=
  profileResult <- metadata_update Profile (updateItemOf perm fieldPermissions);;
  pResult <- first_result profileResult;;
  if sr_success pResult then ret (profileLine (permissionSetOrProfile perm))
  else ret (failureLine (permissionSetOrProfile perm)
              (join ", " (map message_opt (errors_list (sr_errors pResult))))).

(** The body of the outer [try] for one grantee. *)
Definition granteeBody (fieldNames : list string) (perm : PermissionAssignment) : M string :=
  let fieldPermissions := fieldPermissionsOf fieldNames perm in
  try_catch
    (updateResult <- metadata_update PermissionSet (updateItemOf perm fieldPermissions);;
     result <- first_result updateResult;;
     if sr_success result then ret (permSetLine (permissionSetOrProfile perm))
     else profileAttempt perm fieldPermissions)
    (fun _permSetError => profileAttempt perm fieldPermissions).

(** One iteration of [for (const perm of permissions)]. *)
Definition granteeStep (fieldNames : list string) (perm : PermissionAssignment) : M string :=
  try_catch (granteeBody fieldNames perm)
            (fun msg => ret (failureLine (permissionSetOrProfile perm) msg)).

Fixpoint assign_loop (fieldNames : list string) (perms : list PermissionAssignment)
    (results : list string) : M (list string) :=
  match perms with
  | [] => ret results
  | perm :: rest =>
      line <- granteeStep fieldNames perm;;
      assign_loop fieldNames rest (results ++ [line])
  end.

(** [assignFieldPermissions]: [results.join('\n')]. *)
Definition assignFieldPermissions (fieldNames : list string)
    (perms : list PermissionAssignment) : M string :=
  results <- assign_loop fieldNames perms [];;
  ret (join nl results).

(* ------------------------------------------------------------------ *)
(** ** deployFieldsAndPermissions and exec *)

Definition deployFieldsAndPermissions (flds : list FieldDefinition)
    (perms : option (list PermissionAssignment)) : M CallToolResult :=
  let metadataItems := map metadataItem flds in
  deployResult <- metadata_create metadataItems;;
  let results := results_of deployResult in
  parts <- partition_loop results [] [];;
  let successFields := fst parts in
  let failedFields := snd parts in
  permissionResults <-
    (match perms, successFields with
     | Some ((_ :: _) as ps), _ :: _ => assignFieldPermissions successFields ps
     | _, _ => ret EmptyString
     end);;
  let summary := buildResultSummary successFields failedFields permissionResults in
  ret (textResponse summary (0 <? List.length failedFields)%nat).

Definition usernameRequiredMessage : string :=
  "The usernameOrAlias parameter is required. Use the #get_username tool if not specified.".

(** [!input.usernameOrAlias]: absent or the empty string. *)
Definition falsy_string (x : option string) : bool :=
  match x with
  | None | Some EmptyString => true
  | Some _ => false
  end.

Definition exec (input : InputArgs) : M CallToolResult :=
  if falsy_string (usernameOrAlias input) then
    ret (textResponse usernameRequiredMessage true)
  else
    _ <- chdir (directory input);;
    try_catch
      (_ <- getConnection (nullish (usernameOrAlias input) EmptyString);;
       deployFieldsAndPermissions (fields input) (permissions input))
      (fun msg => ret (textResponse ("Failed to create custom fields: " ++ msg) true)).

End Tool.

(* ------------------------------------------------------------------ *)
(** ** Auxiliary definitions for the statements *)

(** No [undefined] anywhere inside a value. *)
Fixpoint jv_defined (v : JV) : bool :=
  match v with
  | JUndef => false
  | JArr xs => forallb jv_defined xs
  | JObj kvs => forallb (fun kv => jv_defined (snd kv)) kvs
  | _ => true
  end.

(** A field definition with every optional attribute omitted. *)
Definition plainField (obj fld : string) (ty : FieldType)
    (pvs : option (list PicklistValue)) : FieldDefinition :=
  {| objectApiName := obj; fieldApiName := fld; label := fld; type := ty;
     description := None; helpText := None; required := None; unique := None;
     externalId := None; length := None; precision := None; scale := None;
     visibleLines := None; picklistValues := pvs; referenceTo := None;
     relationshipName := None; relationshipLabel := None;
     deleteConstraint := None |}.

(** The picklist input [[{value:"A", isDefault:true}, {value:"B"}]]. *)
Definition picklistAB : list PicklistValue :=
  [{| pv_value := "A"; pv_isDefault := Some true |};
   {| pv_value := "B"; pv_isDefault := None |}].

(** The grant-list sent for one grantee, to either kind. *)
Definition grantItem (fieldNames : list string) (perm : PermissionAssignment) : UpdateItem :=
  updateItemOf perm (fieldPermissionsOf fieldNames perm).

(** The PermissionSet attempt did not end in a first result with
    [success: true]: the call rejected, the result was missing, or it had
    [success: false]. *)
Definition kindA_declined (rep : Reply) : bool :=
  match rep with
  | One r | Many (r :: _) => negb (sr_success r)
  | _ => true
  end.

(** The report line for a grantee as a function of the reply of the
    Profile call it ends with. *)
Definition kindB_outcome_line (name : string) (rep : Reply) : string :=
  match rep with
  | Throws msg => failureLine name msg
  | One r | Many (r :: _) =>
      if sr_success r then profileLine name
      else failureLine name (join ", " (map message_opt (errors_list (sr_errors r))))
  | Many [] => failureLine name "Cannot read properties of undefined (reading 'success')"
  end.

(** The three forms of a grantee's report line. *)
Definition grantee_line (name line : string) : Prop :=
  line = permSetLine name \/ line = profileLine name
  \/ exists msg, line = failureLine name msg.

(** [m] only appends calls satisfying [P] to the call log. *)
Definition appends {Srv A} (P : Call -> Prop) (m : M Srv A) : Prop :=
  forall w r w', m w = (r, w') ->
    exists cs, w_log Srv w' = (w_log Srv w ++ cs)%list /\ Forall P cs.

(** A scripted org: each metadata call consumes the next reply of the
    script, and answers with an empty success once the script is over. *)
Definition script_pop (s : list Reply) : Reply * list Reply :=
  match s with
  | [] => (Many [], [])
  | r :: s' => (r, s')
  end.

Definition script_create (s : list Reply) (_ : list JRecord) : Reply * list Reply :=
  script_pop s.

Definition script_update (s : list Reply) (_ : UpdateKind) (_ : UpdateItem)
    : Reply * list Reply :=
  script_pop s.

Definition scriptWorld (s : list Reply) : World (list Reply) :=
  {| w_cwd := "/home/user"; w_dirs := ["/home/user"; "/home/user/project"];
     w_orgs := ["admin@example.com"]; w_srv := s; w_log := [] |}.

Definition okResult (name : string) : SaveResult :=
  {| sr_fullName := name; sr_success := true; sr_errors := ErrorsMany [] |}.

Definition salesTeam : PermissionAssignment :=
  {| permissionSetOrProfile := "SalesTeam"; readable := true; editable := true |}.

Definition failResult (name msg : string) : SaveResult :=
  {| sr_fullName := name; sr_success := false;
     sr_errors := ErrorsOne (ErrObject (Some msg)) |}.

Definition twoFields : list FieldDefinition :=
  [plainField "Object" "Foo" Text None; plainField "Object" "Bar" Text None].

(** An invocation that omits [usernameOrAlias]. *)
Definition inputWithoutUser : InputArgs :=
  {| fields := twoFields; permissions := Some [salesTeam];
     usernameOrAlias := None; directory := "/home/user/project" |}.

(** The same invocation with a username, and with an empty one. *)
Definition inputWithUser : InputArgs :=
  {| fields := twoFields; permissions := Some [salesTeam];
     usernameOrAlias := Some "admin@example.com"; directory := "/home/user/project" |}.

Definition inputEmptyUser : InputArgs :=
  {| fields := twoFields; permissions := Some [salesTeam];
     usernameOrAlias := Some ""; directory := "/home/user/project" |}.

(** A failed outcome whose [errors] array holds [undefined]. *)
Definition undefinedErrResult (name : string) : SaveResult :=
  {| sr_fullName := name; sr_success := false; sr_errors := ErrorsMany [ErrUndefined] |}.

(* ------------------------------------------------------------------ *)
(** ** Lemmas on the object model *)

Lemma js_get_set_other (o : JRecord) (k k' : string) (v : JV) :
  k <> k' -> js_get (js_set o k' v) k = js_get o k.
Proof.
  intros Hne. induction o as [|[k0 v0] o IH]; simpl.
  - destruct (String.eqb_spec k k'); congruence.
  - destruct (String.eqb_spec k' k0) as [->|Hk'];
      destruct (String.eqb_spec k k0); simpl;
      try (destruct (String.eqb_spec k k0); congruence); auto.
Qed.

Lemma js_get_spread_absent (src base : JRecord) (k : string) :
  ~ In k (map fst src) -> js_get (js_spread base src) k = js_get base k.
Proof.
  unfold js_spread. revert base.
  induction src as [|[k0 v0] src IH]; intros base Hn; simpl in *; auto.
  rewrite IH by tauto. apply js_get_set_other. intros ->. tauto.
Qed.

Lemma in_keys_filter (p : string * JV -> bool) (l : JRecord) (k : string) :
  In k (map fst (filter p l)) -> In k (map fst l).
Proof.
  induction l as [|[k0 v0] l IH]; simpl; auto.
  destruct (p (k0, v0)); simpl; intuition.
Qed.

Lemma js_get_filter (p : string * JV -> bool) (l : JRecord) (k : string) (v : JV) :
  js_get l k = Some v -> p (k, v) = true -> js_get (filter p l) k = Some v.
Proof.
  induction l as [|[k0 v0] l IH]; simpl; [discriminate|].
  destruct (String.eqb_spec k k0) as [->|Hne].
  - intros [= ->] Hp. rewrite Hp. simpl. now rewrite String.eqb_refl.
  - intros Hg Hp. destruct (p (k0, v0)); simpl; auto.
    destruct (String.eqb_spec k k0); [congruence|]. auto.
Qed.

Lemma list_ascii_of_string_app (s1 s2 : string) :
  list_ascii_of_string (s1 ++ s2) = (list_ascii_of_string s1 ++ list_ascii_of_string s2)%list.
Proof. induction s1; simpl; congruence. Qed.

Lemma list_prefixb_app (p r : list ascii) : list_prefixb p (p ++ r)%list = true.
Proof. induction p; simpl; auto. now rewrite Ascii.eqb_refl. Qed.

Lemma endsWith_app (s suf : string) : endsWith (s ++ suf) suf = true.
Proof.
  unfold endsWith. rewrite list_ascii_of_string_app, rev_app_distr.
  apply list_prefixb_app.
Qed.


Lemma jv_defined_valueSetOf (pvs : list PicklistValue) :
  jv_defined (valueSetOf pvs) = true.
Proof. induction pvs as [|pv pvs IH]; simpl in *; auto. Qed.

Lemma buildFieldMetadata_no_fullName (field : FieldDefinition) :
  ~ In "fullName" (map fst (buildFieldMetadata field)).
Proof.
  unfold buildFieldMetadata. intros Hin. apply in_keys_filter in Hin.
  unfold typeSpecific, baseMetadata in Hin.
  destruct (type field), (picklistValues field) as [[|? ?]|];
    simpl in Hin; intuition discriminate.
Qed.

Lemma forallb_filter_impl (p q : string * JV -> bool) (l : JRecord) :
  forallb (fun kv => negb (p kv) || q kv) l = true ->
  forallb q (filter p l) = true.
Proof.
  induction l as [|kv l IH]; simpl; auto.
  rewrite andb_true_iff. intros [H1 H2].
  destruct (p kv); simpl in *; rewrite ?H1; auto.
Qed.

Lemma typeSpecific_defined (field : FieldDefinition) :
  forallb (fun kv => negb (negb (is_undefined (snd kv))) || jv_defined (snd kv))
    (typeSpecific field (baseMetadata field)) = true.
Proof.
  pose proof (fun pvs => jv_defined_valueSetOf pvs) as Hvs.
  unfold typeSpecific, baseMetadata.
  destruct (type field), (picklistValues field) as [[|pv pvs]|];
    destruct (description field), (helpText field), (referenceTo field);
    cbn -[valueSetOf]; rewrite ?Hvs; reflexivity.
Qed.

(* ------------------------------------------------------------------ *)
(** ** Field payloads *)

(** C3: the submitted [fullName] is [objectApiName + "." + fieldApiName],
    with [__c] appended exactly when [fieldApiName] does not already end in
    [__c]; the resulting name always ends in [__c]; ["Foo"] and ["Foo__c"]
    on ["Object"] both give ["Object.Foo__c"]. *)
Theorem metadataItem_fullName (field : FieldDefinition) :
  js_get (metadataItem field) "fullName"
    = Some (JStr (objectApiName field ++ "." ++
                  (if endsWith (fieldApiName field) "__c" then fieldApiName field
                   else fieldApiName field ++ "__c")))
  /\ endsWith (fullFieldName field) "__c" = true
  /\ js_get (metadataItem (plainField "Object" "Foo" Text None)) "fullName"
       = Some (JStr "Object.Foo__c")
  /\ js_get (metadataItem (plainField "Object" "Foo__c" Text None)) "fullName"
       = Some (JStr "Object.Foo__c").
Proof.
  split; [|split; [|split]].
  - unfold metadataItem. rewrite js_get_spread_absent
      by apply buildFieldMetadata_no_fullName.
    reflexivity.
  - unfold fullFieldName.
    destruct (endsWith (fieldApiName field) "__c") eqn:E; auto.
    apply endsWith_app.
  - vm_compute. reflexivity.
  - vm_compute. reflexivity.
Qed.

(** C5: for a Picklist or MultiselectPicklist field with a non-empty
    [picklistValues], the payload's [valueSet] is restricted and unsorted,
    with one entry per input value in input order, each
    [{fullName: value, default: isDefault ?? false, label: value}]. *)
Theorem picklist_valueSet (field : FieldDefinition) (pvs : list PicklistValue) :
  (type field = Picklist \/ type field = MultiselectPicklist) ->
  picklistValues field = Some pvs ->
  pvs <> [] ->
  js_get (buildFieldMetadata field) "valueSet" =
    Some (JObj [("restricted", JBool true);
                ("valueSetDefinition",
                  JObj [("sorted", JBool false);
                        ("value",
                          JArr (map (fun pv =>
                                  JObj [("fullName", JStr (pv_value pv));
                                        ("default", JBool (match pv_isDefault pv with
                                                           | Some b => b
                                                           | None => false
                                                           end));
                                        ("label", JStr (pv_value pv))]) pvs))])]).
Proof.
  intros Hty Hpv Hne.
  apply js_get_filter; [|reflexivity].
  destruct pvs as [|pv pvs]; [congruence|].
  unfold typeSpecific, baseMetadata.
  destruct Hty as [Hty|Hty]; rewrite Hty, Hpv; reflexivity.
Qed.

(** C6: the payload of [buildFieldMetadata] holds no key whose value is
    [undefined], and no [undefined] nested anywhere in its values. *)
Theorem buildFieldMetadata_defined (field : FieldDefinition) :
  (forall k v, In (k, v) (buildFieldMetadata field) -> v <> JUndef)
  /\ forallb (fun kv => jv_defined (snd kv)) (buildFieldMetadata field) = true.
Proof.
  assert (Hall : forallb (fun kv => jv_defined (snd kv)) (buildFieldMetadata field) = true).
  { unfold buildFieldMetadata. apply forallb_filter_impl, typeSpecific_defined. }
  split; auto.
  intros k v Hin ->.
  rewrite forallb_forall in Hall. specialize (Hall _ Hin). discriminate.
Qed.



(* ------------------------------------------------------------------ *)
(** ** Orchestration *)

Section Orchestration.

Variable Srv : Type.
Variable srv_create : Srv -> list JRecord -> Reply * Srv.
Variable srv_update : Srv -> UpdateKind -> UpdateItem -> Reply * Srv.

(** C9: without [usernameOrAlias], [exec] returns the fixed instructional
    message with the error flag set, and makes no remote call: no
    resolution, no create, no update (the call log and the org are as
    before). *)
Theorem exec_missing_username (input : InputArgs) (w : World Srv) :
  usernameOrAlias input = None ->
  let (res, w') := exec Srv srv_create srv_update input w in
  res = inr {| content_text := usernameRequiredMessage; isError := true |}
  /\ w_log Srv w' = w_log Srv w
  /\ w_srv Srv w' = w_srv Srv w.
Proof.
  intros H. unfold exec. rewrite H. simpl. auto.
Qed.

(** C10: without [usernameOrAlias], [exec] leaves the process working
    directory as it was: [process.chdir] only runs after the check. *)
Theorem exec_missing_username_cwd (input : InputArgs) (w : World Srv) :
  usernameOrAlias input = None ->
  w_cwd Srv (snd (exec Srv srv_create srv_update input w)) = w_cwd Srv w.
Proof.
  intros H. unfold exec. rewrite H. reflexivity.
Qed.

Lemma mapM_world {A B} (f : A -> M Srv B) (xs : list A) (w w' : World Srv) r :
  (forall x v v' y, f x v = (y, v') -> v' = v) ->
  mapM Srv f xs w = (r, w') -> w' = w.
Proof.
  intros Hf. revert w w' r. induction xs as [|x xs IH]; intros w w' r H; simpl in H.
  - unfold ret in H. congruence.
  - unfold bind at 1 in H.
    destruct (f x w) as [[e|y] w1] eqn:E1; apply Hf in E1; subst w1;
      [cbn in H; congruence|].
    unfold bind in H.
    destruct (mapM Srv f xs w) as [[e|ys] w2] eqn:E2; apply IH in E2; subst w2;
      unfold ret in H; cbn in H; congruence.
Qed.

Lemma mapM_message_strict_world (es : list ErrVal) (w w' : World Srv) r :
  mapM Srv (message_strict Srv) es w = (r, w') -> w' = w.
Proof.
  apply mapM_world. intros [|m] v v' y H; cbv [message_strict throw ret] in H; congruence.
Qed.

Lemma partition_loop_spec (rs : list SaveResult) (s f s' f' : list string)
    (w w' : World Srv) :
  partition_loop Srv rs s f w = (inr (s', f'), w') ->
  s' = (s ++ map sr_fullName (filter sr_success rs))%list
  /\ (exists fnew, f' = (f ++ fnew)%list
        /\ Forall2 (fun r x => exists m, x = sr_fullName r ++ ": " ++ m)
                   (filter (fun r => negb (sr_success r)) rs) fnew)
  /\ w' = w.
Proof.
  revert s f w. induction rs as [|r rs IH]; intros s f w H; simpl in H.
  - unfold ret in H. inversion H; subst. simpl.
    rewrite !app_nil_r. split; auto. split; auto. exists []. rewrite app_nil_r. auto.
  - destruct (sr_success r) eqn:Hs.
    + apply IH in H as (Hs' & (fnew & Hf & HF) & Hw). simpl. rewrite Hs.
      split; [rewrite Hs', <- app_assoc; reflexivity|]. split; eauto.
    + unfold bind in H.
      destruct (mapM Srv (message_strict Srv) (errors_list (sr_errors r)) w)
        as [[m|msgs] w1] eqn:E; [discriminate|].
      apply mapM_message_strict_world in E; subst w1.
      apply IH in H as (Hs' & (fnew & Hf & HF) & Hw). simpl. rewrite Hs.
      split; [exact Hs'|]. split; [|exact Hw].
      exists ((sr_fullName r ++ ": " ++ join ", " msgs) :: fnew).
      split; [rewrite Hf, <- app_assoc; reflexivity|].
      constructor; [exists (join ", " msgs); reflexivity | exact HF].
Qed.

Lemma mapM_message_strict_run (es : list ErrVal) (w : World Srv) :
  mapM Srv (message_strict Srv) es w =
    (if existsb (fun e => match e with ErrUndefined => true | ErrObject _ => false end) es
     then inl "Cannot read properties of undefined (reading 'message')"
     else inr (map message_opt es), w).
Proof.
  induction es as [|e es IH]; [reflexivity|].
  destruct e as [|m]; cbn [mapM]; unfold bind at 1; [reflexivity|].
  change (message_strict Srv (ErrObject m) w) with (@inr string string (nullish m EmptyString), w).
  cbv beta iota. unfold bind. rewrite IH. cbn [existsb orb].
  destruct (existsb _ es); reflexivity.
Qed.
Lemma no_undefined_existsb (es : list ErrVal) :
  ~ In ErrUndefined es ->
  existsb (fun e => match e with ErrUndefined => true | ErrObject _ => false end) es = false.
Proof.
  induction es as [|[|m] es IH]; simpl; auto.
  - intros H. exfalso. apply H. left. reflexivity.
Qed.

Lemma partition_loop_run (rs : list SaveResult) (s f : list string) (w : World Srv) :
  Forall (fun r => sr_success r = false -> ~ In ErrUndefined (errors_list (sr_errors r))) rs ->
  partition_loop Srv rs s f w
  = (inr (app s (map sr_fullName (filter sr_success rs)),
          app f (map (fun r => sr_fullName r ++ ": "
                               ++ join ", " (map message_opt (errors_list (sr_errors r))))
                     (filter (fun r => negb (sr_success r)) rs))), w).
Proof.
  revert s f. induction rs as [|r rs IH]; intros s f HF; cbn [partition_loop].
  - rewrite !app_nil_r. reflexivity.
  - inversion HF as [|? ? Hr Hrs]; subst. cbn [filter].
    destruct (sr_success r) eqn:Hs; cbn [negb].
    + rewrite IH by exact Hrs. rewrite <- app_assoc. reflexivity.
    + unfold bind. rewrite mapM_message_strict_run, no_undefined_existsb by auto.
      rewrite IH by exact Hrs. rewrite <- app_assoc. reflexivity.
Qed.

Lemma filter_split_perm {A} (p : A -> bool) (l : list A) :
  Permutation (filter p l ++ filter (fun x => negb (p x)) l)%list l.
Proof.
  induction l as [|x l IH]; simpl; auto.
  destruct (p x); simpl.
  - constructor. exact IH.
  - apply Permutation_sym, Permutation_cons_app, Permutation_sym. exact IH.
Qed.

(** C4: for a reply that keeps the create call's contract (one outcome
    per submitted field, carrying that field's [fullName], in any order,
    and an error object for each failure), the outcomes are [results_of]
    the reply: a single outcome is wrapped into a one-element list and an
    array is used as is, and the list has one entry per submitted field.
    [successFields] lists the [fullName] of each successful outcome,
    [failedFields] one ["fullName: joined messages"] entry per failed
    outcome, and together they name every submitted field exactly once,
    whatever the order of the outcomes: outcomes are matched to fields by
    [fullName], not by position. *)
Theorem partition_by_returned_outcomes (flds : list FieldDefinition) (rep : Reply)
    (w : World Srv) :
  (forall m, rep <> Throws m) ->
  Permutation (map sr_fullName (results_of rep)) (map itemFullName flds) ->
  Forall (fun r => sr_success r = false -> ~ In ErrUndefined (errors_list (sr_errors r)))
         (results_of rep) ->
  (forall r, rep = One r -> results_of rep = [r])
  /\ (forall rs, rep = Many rs -> results_of rep = rs)
  /\ List.length (results_of rep) = List.length flds
  /\ partition_loop Srv (results_of rep) [] [] w
     = (inr (map sr_fullName (filter sr_success (results_of rep)),
             map (fun r => sr_fullName r ++ ": "
                           ++ join ", " (map message_opt (errors_list (sr_errors r))))
                 (filter (fun r => negb (sr_success r)) (results_of rep))), w)
  /\ Permutation (map sr_fullName (filter sr_success (results_of rep))
                  ++ map sr_fullName (filter (fun r => negb (sr_success r)) (results_of rep)))%list
                 (map itemFullName flds).
Proof.
  intros Hrep Hperm HF.
  split; [intros r ->; reflexivity|]. split; [intros rs ->; reflexivity|].
  split; [apply Permutation_length in Hperm; rewrite !length_map in Hperm; exact Hperm|].
  split; [apply partition_loop_run; exact HF|].
  rewrite <- map_app. eapply Permutation_trans; [|exact Hperm].
  apply Permutation_map, filter_split_perm.
Qed.


Lemma profileAttempt_run (perm : PermissionAssignment) (fps : list FieldPermission)
    (w : World Srv) (repB : Reply) (sB : Srv) :
  srv_update (w_srv Srv w) Profile (updateItemOf perm fps) = (repB, sB) ->
  profileAttempt Srv srv_update perm fps w =
    (match repB with
     | Throws msg => inl msg
     | Many [] => inl "Cannot read properties of undefined (reading 'success')"
     | One r | Many (r :: _) =>
         inr (if sr_success r then profileLine (permissionSetOrProfile perm)
              else failureLine (permissionSetOrProfile perm)
                     (join ", " (map message_opt (errors_list (sr_errors r)))))
     end,
     log_call Srv (CallUpdate Profile (updateItemOf perm fps) repB) (with_srv Srv sB w)).
Proof.
  intros H. unfold profileAttempt, bind, metadata_update. rewrite H.
  destruct repB as [m|r|[|r rs]]; try reflexivity;
    simpl; destruct (sr_success r); reflexivity.
Qed.

Lemma profileAttempt_shape (perm : PermissionAssignment) (fps : list FieldPermission)
    (w w' : World Srv) (line : string) :
  profileAttempt Srv srv_update perm fps w = (inr line, w') ->
  grantee_line (permissionSetOrProfile perm) line.
Proof.
  destruct (srv_update (w_srv Srv w) Profile (updateItemOf perm fps)) as [repB sB] eqn:HB.
  rewrite (profileAttempt_run _ _ _ _ _ HB).
  unfold grantee_line.
  destruct repB as [m|r|[|r rs]]; intros H; inversion H; subst;
    destruct (sr_success r); eauto.
Qed.

Lemma caught_profileAttempt (perm : PermissionAssignment) (fps : list FieldPermission)
    (w : World Srv) (repB : Reply) (sB : Srv) :
  srv_update (w_srv Srv w) Profile (updateItemOf perm fps) = (repB, sB) ->
  try_catch Srv (profileAttempt Srv srv_update perm fps)
    (fun msg => ret Srv (failureLine (permissionSetOrProfile perm) msg)) w
  = (inr (kindB_outcome_line (permissionSetOrProfile perm) repB),
     log_call Srv (CallUpdate Profile (updateItemOf perm fps) repB) (with_srv Srv sB w)).
Proof.
  intros H. unfold try_catch. rewrite (profileAttempt_run _ _ _ _ _ H).
  destruct repB as [m|r|[|r rs]]; try reflexivity;
    simpl; destruct (sr_success r); reflexivity.
Qed.

Lemma granteeBody_shape (fieldNames : list string) (perm : PermissionAssignment)
    (w w' : World Srv) (line : string) :
  granteeBody Srv srv_update fieldNames perm w = (inr line, w') ->
  grantee_line (permissionSetOrProfile perm) line.
Proof.
  unfold granteeBody, try_catch.
  destruct (bind Srv _ _ w) as [[m|l] w1] eqn:E.
  - apply profileAttempt_shape.
  - intros [= <- <-]. revert E.
    unfold bind, metadata_update.
    destruct (srv_update _ PermissionSet _) as [repA sA].
    destruct repA as [mA|rA|[|rA rsA]]; simpl; try discriminate;
      destruct (sr_success rA); simpl;
      solve [ intros [= <- <-]; left; reflexivity
            | apply profileAttempt_shape ].
Qed.

Lemma granteeStep_total (fieldNames : list string) (perm : PermissionAssignment)
    (w : World Srv) :
  exists line w',
    granteeStep Srv srv_update fieldNames perm w = (inr line, w')
    /\ grantee_line (permissionSetOrProfile perm) line.
Proof.
  unfold granteeStep, try_catch.
  destruct (granteeBody Srv srv_update fieldNames perm w) as [[m|l] w1] eqn:E.
  - exists (failureLine (permissionSetOrProfile perm) m), w1.
    split; [reflexivity|]. right; right; eauto.
  - exists l, w1. split; [reflexivity|]. eapply granteeBody_shape; eauto.
Qed.

Lemma assign_loop_spec (fieldNames : list string) (perms : list PermissionAssignment)
    (acc : list string) (w : World Srv) :
  exists lines w',
    assign_loop Srv srv_update fieldNames perms acc w = (inr (acc ++ lines)%list, w')
    /\ Forall2 (fun perm line => grantee_line (permissionSetOrProfile perm) line)
               perms lines.
Proof.
  revert acc w. induction perms as [|perm perms IH]; intros acc w; simpl.
  - exists [], w. rewrite app_nil_r. split; [reflexivity|constructor].
  - unfold bind at 1.
    destruct (granteeStep_total fieldNames perm w) as (line & w1 & E & Hl).
    rewrite E.
    destruct (IH (acc ++ [line])%list w1) as (lines & w2 & E2 & HF).
    exists (line :: lines), w2. rewrite E2, <- app_assoc.
    split; [reflexivity|constructor; assumption].
Qed.

(** C8: [assignFieldPermissions] never throws; its report is the join of
    exactly one line per grantee, in input order, each naming that grantee
    (a Permission Set success, a Profile success or a failure); an
    exception escaping a grantee's attempt, fallback included, becomes that
    grantee's failure line with the exception's message. *)
Theorem assignFieldPermissions_lines (fieldNames : list string)
    (perms : list PermissionAssignment) (w : World Srv) :
  (exists lines w',
      assignFieldPermissions Srv srv_update fieldNames perms w = (inr (join nl lines), w')
      /\ List.length lines = List.length perms
      /\ Forall2 (fun perm line => grantee_line (permissionSetOrProfile perm) line)
                 perms lines)
  /\ (forall perm v msg v',
        granteeBody Srv srv_update fieldNames perm v = (inl msg, v') ->
        granteeStep Srv srv_update fieldNames perm v
          = (inr (failureLine (permissionSetOrProfile perm) msg), v')).
Proof.
  split.
  - destruct (assign_loop_spec fieldNames perms [] w) as (lines & w' & E & HF).
    exists lines, w'. unfold assignFieldPermissions, bind. rewrite E. simpl.
    split; [reflexivity|]. split; [symmetry; eapply Forall2_length; eauto|exact HF].
  - intros perm v msg v' H. unfold granteeStep, try_catch. rewrite H. reflexivity.
Qed.

Lemma permission_phase_total (perms : option (list PermissionAssignment))
    (successFields : list string) (w : World Srv) :
  exists pr w',
    (match perms, successFields with
     | Some ((_ :: _) as ps), _ :: _ => assignFieldPermissions Srv srv_update successFields ps
     | _, _ => ret Srv EmptyString
     end) w = (inr pr, w').
Proof.
  destruct perms as [[|p ps]|], successFields as [|f fs];
    try (eexists _, _; reflexivity).
  destruct (assign_loop_spec (f :: fs) (p :: ps) [] w) as (lines & w' & E & _).
  exists (join nl lines), w'. unfold assignFieldPermissions, bind. rewrite E. reflexivity.
Qed.

(** C2: whenever [deployFieldsAndPermissions] reaches its summary, the
    error flag of the result is set exactly when [failedFields] is
    non-empty; the same fields deployed with no permission request give the
    same flag, so permission failures never set it. *)
Theorem deploy_error_flag (flds : list FieldDefinition)
    (perms : option (list PermissionAssignment)) (w w' : World Srv)
    (r : CallToolResult) :
  deployFieldsAndPermissions Srv srv_create srv_update flds perms w = (inr r, w') ->
  exists rep w1 successFields failedFields,
    metadata_create Srv srv_create (map metadataItem flds) w = (inr rep, w1)
    /\ partition_loop Srv (results_of rep) [] [] w1
         = (inr (successFields, failedFields), w1)
    /\ (isError r = true <-> failedFields <> [])
    /\ (exists r0 w0,
          deployFieldsAndPermissions Srv srv_create srv_update flds None w = (inr r0, w0)
          /\ isError r0 = isError r).
Proof.
  intros H. unfold deployFieldsAndPermissions in *. unfold bind at 1 in H.
  destruct (metadata_create Srv srv_create (map metadataItem flds) w)
    as [[e|rep] w1] eqn:Ec; [discriminate|].
  unfold bind at 1 in H.
  destruct (partition_loop Srv (results_of rep) [] [] w1)
    as [[e|[sf ff]] w2] eqn:Ep; [discriminate|].
  pose proof Ep as Ep'. apply partition_loop_spec in Ep' as (_ & _ & ->).
  exists rep, w1, sf, ff. split; [reflexivity|]. split; [exact Ep|].
  simpl fst in H. simpl snd in H.
  destruct (permission_phase_total perms sf w1) as (pr & w3 & Epr).
  unfold bind in H. rewrite Epr in H. unfold ret in H.
  injection H as <- _. simpl isError.
  split.
  - destruct ff as [|x ff]; simpl.
    + split; [discriminate|]. intros Hc. contradiction Hc. reflexivity.
    + split; [intros _; discriminate|reflexivity].
  - unfold bind. rewrite Ec, Ep. simpl. eexists _, _. split; reflexivity.
Qed.

(** C1: when the PermissionSet update rejects, or resolves without a first
    result with [success: true], the same grant-list is sent to the Profile
    kind, and the grantee's report line is the outcome of the Profile call
    the attempt ends with (success, declared failure or exception).  On the
    declared-failure path a rejected Profile call is itself caught by the
    PermissionSet [catch] and sent once more, so at most one further Profile
    call precedes the final one; every call carries the same grant-list. *)
Theorem granteeStep_fallback (fieldNames : list string) (perm : PermissionAssignment)
    (w : World Srv) (repA : Reply) (sA : Srv) :
  srv_update (w_srv Srv w) PermissionSet (grantItem fieldNames perm) = (repA, sA) ->
  kindA_declined repA = true ->
  exists retries repB,
    w_log Srv (snd (granteeStep Srv srv_update fieldNames perm w))
      = (w_log Srv w
         ++ [CallUpdate PermissionSet (grantItem fieldNames perm) repA]
         ++ retries
         ++ [CallUpdate Profile (grantItem fieldNames perm) repB])%list
    /\ fst (granteeStep Srv srv_update fieldNames perm w)
         = inr (kindB_outcome_line (permissionSetOrProfile perm) repB)
    /\ Forall (fun c => exists rep, c = CallUpdate Profile (grantItem fieldNames perm) rep)
              retries
    /\ (List.length retries <= 1)%nat.
Proof.
  intros HA Hd. unfold grantItem in *.
  unfold granteeStep, granteeBody, try_catch, bind, metadata_update.
  cbv beta. rewrite HA.
  destruct (srv_update sA Profile (updateItemOf perm (fieldPermissionsOf fieldNames perm)))
    as [repB sB] eqn:HB.
  destruct repA as [mA|rA|[|rA rsA]]; simpl in Hd; cbn -[profileAttempt];
    [| destruct (sr_success rA); [discriminate|]
     |
     | destruct (sr_success rA); [discriminate|]];
    erewrite profileAttempt_run by exact HB;
    destruct repB as [mB|rB|[|rB rsB]];
    cbn -[profileAttempt];
    try (exists []; eexists;
         split; [rewrite <- !app_assoc; reflexivity|];
         split; [reflexivity|]; split; [constructor|simpl; lia]).
  (* the declared-failure path whose Profile call rejected: a second one *)
  all: destruct (srv_update sB Profile (updateItemOf perm (fieldPermissionsOf fieldNames perm)))
         as [repC sC] eqn:HC.
  all: erewrite profileAttempt_run by exact HC.
  all: eexists [_]; eexists; destruct repC as [mC|rC|[|rC rsC]].
  all: split; [cbn; rewrite <- !app_assoc; reflexivity|].
  all: split; [reflexivity|]; split; [repeat constructor; eexists; reflexivity|simpl; lia].
Qed.


End Orchestration.

(* ------------------------------------------------------------------ *)
(** ** Payload attributes, per field type *)

Lemma js_get_absent (l : JRecord) (k : string) :
  ~ In k (map fst l) -> js_get l k = None.
Proof.
  induction l as [|[k0 v0] l IH]; simpl; auto.
  intros Hn. destruct (String.eqb_spec k k0); [subst; tauto|]. apply IH. tauto.
Qed.

Lemma js_get_filter_nodup (p : string * JV -> bool) (l : JRecord) (k : string) :
  NoDup (map fst l) ->
  js_get (filter p l) k =
    match js_get l k with
    | Some v => if p (k, v) then Some v else None
    | None => None
    end.
Proof.
  induction l as [|[k0 v0] l IH]; simpl; auto.
  intros Hnd. inversion Hnd as [|? ? Hn Hnd']; subst.
  destruct (String.eqb_spec k k0) as [->|Hne].
  - destruct (p (k0, v0)) eqn:Hp; simpl.
    + now rewrite String.eqb_refl.
    + rewrite IH by assumption. now rewrite js_get_absent.
  - destruct (p (k0, v0)); simpl; [|auto].
    destruct (String.eqb_spec k k0); [congruence|]. auto.
Qed.

Lemma typeSpecific_nodup (field : FieldDefinition) :
  NoDup (map fst (typeSpecific field (baseMetadata field))).
Proof.
  unfold typeSpecific, baseMetadata.
  destruct (type field), (picklistValues field) as [[|? ?]|]; simpl;
    repeat constructor; simpl; intuition discriminate.
Qed.

(** A key of the payload holds what the type-specific step stored there,
    unless that is [undefined], in which case the key is absent. *)
Lemma buildFieldMetadata_get (field : FieldDefinition) (k : string) :
  js_get (buildFieldMetadata field) k =
    match js_get (typeSpecific field (baseMetadata field)) k with
    | Some JUndef => None
    | o => o
    end.
Proof.
  unfold buildFieldMetadata. rewrite js_get_filter_nodup by apply typeSpecific_nodup.
  destruct (js_get _ k) as [[]|]; reflexivity.
Qed.

Ltac payload_cases field :=
  rewrite buildFieldMetadata_get; unfold typeSpecific, baseMetadata;
  destruct (picklistValues field) as [[|? ?]|].

(** Every payload carries [label], the mapped [type], and [required],
    [unique], [externalId] defaulting to [false]; [description] and
    [inlineHelpText] are present exactly when given. *)
Theorem buildFieldMetadata_base (field : FieldDefinition) :
  js_get (buildFieldMetadata field) "label" = Some (JStr (label field))
  /\ js_get (buildFieldMetadata field) "type" = Some (mapFieldType (fieldTypeName (type field)))
  /\ js_get (buildFieldMetadata field) "required"
       = Some (JBool (match required field with Some b => b | None => false end))
  /\ js_get (buildFieldMetadata field) "unique"
       = Some (JBool (match unique field with Some b => b | None => false end))
  /\ js_get (buildFieldMetadata field) "externalId"
       = Some (JBool (match externalId field with Some b => b | None => false end))
  /\ js_get (buildFieldMetadata field) "description"
       = match description field with Some d => Some (JStr d) | None => None end
  /\ js_get (buildFieldMetadata field) "inlineHelpText"
       = match helpText field with Some h => Some (JStr h) | None => None end.
Proof.
  repeat split; payload_cases field; destruct (type field); simpl;
    try reflexivity;
    try (destruct (description field); reflexivity);
    try (destruct (helpText field); reflexivity).
Qed.

(** Text and TextArea: [length] is the given one, or 255. *)
Theorem text_length_default (field : FieldDefinition) :
  type field = Text \/ type field = TextArea ->
  js_get (buildFieldMetadata field) "length"
    = Some (JNum (match length field with Some q => q | None => 255 end)).
Proof.
  intros Hty. payload_cases field; destruct Hty as [Hty|Hty]; rewrite Hty; reflexivity.
Qed.

(** Number, Currency and Percent: [precision] is the given one or 18, and
    [scale] the given one or 2. *)
Theorem numeric_precision_scale (field : FieldDefinition) :
  type field = Number \/ type field = Currency \/ type field = Percent ->
  js_get (buildFieldMetadata field) "precision"
    = Some (JNum (match precision field with Some q => q | None => 18 end))
  /\ js_get (buildFieldMetadata field) "scale"
    = Some (JNum (match scale field with Some q => q | None => 2 end)).
Proof.
  intros Hty. split; payload_cases field;
    destruct Hty as [Hty|[Hty|Hty]]; rewrite Hty; reflexivity.
Qed.

(** LongTextArea and RichTextArea: [length] is the given one or 32768,
    [visibleLines] the given one or 6. *)
Theorem longtext_defaults (field : FieldDefinition) :
  type field = LongTextArea \/ type field = RichTextArea ->
  js_get (buildFieldMetadata field) "length"
    = Some (JNum (match length field with Some q => q | None => 32768 end))
  /\ js_get (buildFieldMetadata field) "visibleLines"
    = Some (JNum (match visibleLines field with Some q => q | None => 6 end)).
Proof.
  intros Hty. split; payload_cases field;
    destruct Hty as [Hty|Hty]; rewrite Hty; reflexivity.
Qed.

(** MultiselectPicklist gets [visibleLines] (given or 4); a Picklist never
    has [visibleLines], even when one is given. *)
Theorem picklist_visibleLines (field : FieldDefinition) :
  (type field = MultiselectPicklist ->
   js_get (buildFieldMetadata field) "visibleLines"
     = Some (JNum (match visibleLines field with Some q => q | None => 4 end)))
  /\ (type field = Picklist -> js_get (buildFieldMetadata field) "visibleLines" = None).
Proof.
  split; intros Hty; payload_cases field; rewrite Hty; reflexivity.
Qed.

(** A [valueSet] is present exactly for a Picklist or MultiselectPicklist
    with a non-empty [picklistValues]: an empty or omitted list, or any
    other type, gives none. *)
Theorem valueSet_presence (field : FieldDefinition) :
  js_get (buildFieldMetadata field) "valueSet" =
    match type field, picklistValues field with
    | (Picklist | MultiselectPicklist), Some ((_ :: _) as pvs) => Some (valueSetOf pvs)
    | _, _ => None
    end.
Proof.
  payload_cases field; destruct (type field); reflexivity.
Qed.

(** Lookup: [referenceTo] is present exactly when given, [relationshipName]
    defaults to [fieldApiName + "s"], [relationshipLabel] to
    [label + "s"], and [deleteConstraint] to ["SetNull"]. *)
Theorem lookup_defaults (field : FieldDefinition) :
  type field = Lookup ->
  js_get (buildFieldMetadata field) "referenceTo"
    = match referenceTo field with Some r => Some (JStr r) | None => None end
  /\ js_get (buildFieldMetadata field) "relationshipName"
    = Some (JStr (match relationshipName field with
                  | Some n => n | None => fieldApiName field ++ "s" end))
  /\ js_get (buildFieldMetadata field) "relationshipLabel"
    = Some (JStr (match relationshipLabel field with
                  | Some n => n | None => label field ++ "s" end))
  /\ js_get (buildFieldMetadata field) "deleteConstraint"
    = Some (JStr (deleteConstraintName (match deleteConstraint field with
                                        | Some d => d | None => SetNull end))).
Proof.
  intros Hty. repeat split; payload_cases field; rewrite Hty; simpl;
    try reflexivity; destruct (referenceTo field); reflexivity.
Qed.

(** MasterDetail: the same relationship attributes as Lookup, but never a
    [deleteConstraint], even when one is given. *)
Theorem masterDetail_defaults (field : FieldDefinition) :
  type field = MasterDetail ->
  js_get (buildFieldMetadata field) "referenceTo"
    = match referenceTo field with Some r => Some (JStr r) | None => None end
  /\ js_get (buildFieldMetadata field) "relationshipName"
    = Some (JStr (match relationshipName field with
                  | Some n => n | None => fieldApiName field ++ "s" end))
  /\ js_get (buildFieldMetadata field) "relationshipLabel"
    = Some (JStr (match relationshipLabel field with
                  | Some n => n | None => label field ++ "s" end))
  /\ js_get (buildFieldMetadata field) "deleteConstraint" = None.
Proof.
  intros Hty. repeat split; payload_cases field; rewrite Hty; simpl;
    try reflexivity; destruct (referenceTo field); reflexivity.
Qed.

(** Checkbox, Date, DateTime, Email, Phone and Url: the payload has only
    the base attributes, in this order. *)
Theorem simple_types_keys (field : FieldDefinition) :
  In (type field) [Checkbox; Date; DateTime; Email; Phone; Url] ->
  map fst (buildFieldMetadata field) =
    (["label"; "type"]
     ++ (match description field with Some _ => ["description"] | None => [] end)
     ++ (match helpText field with Some _ => ["inlineHelpText"] | None => [] end)
     ++ ["required"; "unique"; "externalId"])%list.
Proof.
  intros Hin. unfold buildFieldMetadata, typeSpecific, baseMetadata.
  simpl in Hin.
  destruct Hin as [H|[H|[H|[H|[H|[H|[]]]]]]]; rewrite <- H;
    destruct (description field), (helpText field); reflexivity.
Qed.

(* ------------------------------------------------------------------ *)
(** ** The item submitted for a field *)

Lemma js_get_set_same (o : JRecord) (k : string) (v : JV) :
  js_get (js_set o k v) k = Some v.
Proof.
  induction o as [|[k0 v0] o IH]; simpl.
  - now rewrite String.eqb_refl.
  - destruct (String.eqb_spec k k0) as [->|Hne]; simpl.
    + now rewrite String.eqb_refl.
    + destruct (String.eqb_spec k k0); [congruence|]. exact IH.
Qed.

Lemma js_get_spread_nodup (base src : JRecord) (k : string) :
  NoDup (map fst src) ->
  js_get (js_spread base src) k =
    match js_get src k with Some v => Some v | None => js_get base k end.
Proof.
  unfold js_spread. revert base.
  induction src as [|[k0 v0] src IH]; intros base Hnd; simpl; auto.
  inversion Hnd as [|? ? Hn Hnd']; subst.
  rewrite IH by assumption.
  destruct (String.eqb_spec k k0) as [->|Hne].
  - rewrite js_get_absent by assumption. apply js_get_set_same.
  - destruct (js_get src k); auto. now apply js_get_set_other.
Qed.

Lemma nodup_keys_filter (p : string * JV -> bool) (l : JRecord) :
  NoDup (map fst l) -> NoDup (map fst (filter p l)).
Proof.
  induction l as [|[k0 v0] l IH]; simpl; auto.
  intros Hnd. inversion Hnd as [|? ? Hn Hnd']; subst.
  destruct (p (k0, v0)); simpl; auto.
  constructor; auto. intros Hin. apply Hn. eapply in_keys_filter; eauto.
Qed.

Lemma payload_type (field : FieldDefinition) :
  js_get (buildFieldMetadata field) "type" = Some (mapFieldType (fieldTypeName (type field))).
Proof. payload_cases field; destruct (type field); reflexivity. Qed.

(** The submitted item carries every payload attribute unchanged; its
    [type] is the mapped field type: the payload's [type] replaces the
    ['CustomField'] tag written before the spread. *)
Theorem metadataItem_attributes (field : FieldDefinition) :
  (forall k, k <> "fullName" ->
     js_get (metadataItem field) k = js_get (buildFieldMetadata field) k)
  /\ js_get (metadataItem field) "type" = Some (mapFieldType (fieldTypeName (type field))).
Proof.
  assert (Hnd : NoDup (map fst (buildFieldMetadata field)))
    by (apply nodup_keys_filter, typeSpecific_nodup).
  assert (Hk : forall k, k <> "fullName" ->
             js_get (metadataItem field) k = js_get (buildFieldMetadata field) k).
  { intros k Hk. unfold metadataItem. rewrite js_get_spread_nodup by exact Hnd.
    destruct (js_get (buildFieldMetadata field) k) eqn:E; auto.
    simpl. destruct (String.eqb_spec k "type") as [->|Hne1].
    - rewrite payload_type in E. discriminate.
    - destruct (String.eqb_spec k "fullName"); [congruence|reflexivity]. }
  split; [exact Hk|]. rewrite Hk by discriminate. apply payload_type.
Qed.

(* ------------------------------------------------------------------ *)
(** ** Remote calls made by the orchestration *)

Section Calls.

Variable Srv : Type.
Variable srv_create : Srv -> list JRecord -> Reply * Srv.
Variable srv_update : Srv -> UpdateKind -> UpdateItem -> Reply * Srv.

Lemma appends_ret {A} (P : Call -> Prop) (a : A) : appends P (ret Srv a).
Proof. intros w r w' H. injection H as _ <-. exists []. rewrite app_nil_r. auto. Qed.

Lemma appends_throw {A} (P : Call -> Prop) (msg : string) : appends P (@throw Srv A msg).
Proof. intros w r w' H. injection H as _ <-. exists []. rewrite app_nil_r. auto. Qed.

Lemma appends_bind {A B} (P : Call -> Prop) (m : M Srv A) (k : A -> M Srv B) :
  appends P m -> (forall a, appends P (k a)) -> appends P (bind Srv m k).
Proof.
  intros Hm Hk w r w' H. unfold bind in H.
  destruct (m w) as [[e|a] w1] eqn:E; apply Hm in E as (cs1 & Hl1 & HF1).
  - injection H as _ <-. eauto.
  - apply Hk in H as (cs2 & Hl2 & HF2). exists (cs1 ++ cs2)%list.
    rewrite Hl2, Hl1, app_assoc. split; [reflexivity|]. apply Forall_app; auto.
Qed.

Lemma appends_try_catch {A} (P : Call -> Prop) (m : M Srv A) (h : string -> M Srv A) :
  appends P m -> (forall e, appends P (h e)) -> appends P (try_catch Srv m h).
Proof.
  intros Hm Hh w r w' H. unfold try_catch in H.
  destruct (m w) as [[e|a] w1] eqn:E; apply Hm in E as (cs1 & Hl1 & HF1).
  - apply Hh in H as (cs2 & Hl2 & HF2). exists (cs1 ++ cs2)%list.
    rewrite Hl2, Hl1, app_assoc. split; [reflexivity|]. apply Forall_app; auto.
  - injection H as _ <-. eauto.
Qed.

Lemma appends_weaken {A} (P Q : Call -> Prop) (m : M Srv A) :
  (forall c, P c -> Q c) -> appends P m -> appends Q m.
Proof.
  intros HPQ Hm w r w' H. apply Hm in H as (cs & Hl & HF).
  exists cs. split; auto. eapply Forall_impl; eauto.
Qed.

Lemma appends_update (P : Call -> Prop) (k : UpdateKind) (item : UpdateItem) :
  (forall rep, P (CallUpdate k item rep)) -> appends P (metadata_update Srv srv_update k item).
Proof.
  intros HP w r w' H. unfold metadata_update in H.
  destruct (srv_update (w_srv Srv w) k item) as [rep s'].
  exists [CallUpdate k item rep].
  destruct rep; simpl in H; injection H as _ <-; split; auto.
Qed.

Lemma appends_first_result (P : Call -> Prop) (rep : Reply) :
  appends P (first_result Srv rep).
Proof.
  destruct rep as [m|r|[|r rs]]; simpl;
    first [apply appends_ret | apply appends_throw].
Qed.

Lemma appends_profileAttempt (P : Call -> Prop) (perm : PermissionAssignment)
    (fps : list FieldPermission) :
  (forall rep, P (CallUpdate Profile (updateItemOf perm fps) rep)) ->
  appends P (profileAttempt Srv srv_update perm fps).
Proof.
  intros HP. unfold profileAttempt.
  apply appends_bind; [apply appends_update; exact HP|]. intros rep.
  apply appends_bind; [apply appends_first_result|]. intros r.
  destruct (sr_success r); apply appends_ret.
Qed.

Lemma appends_granteeStep (fieldNames : list string) (perm : PermissionAssignment) :
  appends (fun c => exists k rep, c = CallUpdate k (grantItem fieldNames perm) rep)
    (granteeStep Srv srv_update fieldNames perm).
Proof.
  assert (HP : forall k rep, exists k' rep',
             CallUpdate k (grantItem fieldNames perm) rep
             = CallUpdate k' (grantItem fieldNames perm) rep') by eauto.
  unfold granteeStep, granteeBody.
  apply appends_try_catch; [|intros; apply appends_ret].
  apply appends_try_catch; [|intros; apply appends_profileAttempt; intros; apply HP].
  apply appends_bind; [apply appends_update; intros; apply HP|]. intros rep.
  apply appends_bind; [apply appends_first_result|]. intros r.
  destruct (sr_success r); [apply appends_ret|].
  apply appends_profileAttempt; intros; apply HP.
Qed.

Lemma appends_assign_loop (fieldNames : list string) (perms : list PermissionAssignment)
    (acc : list string) :
  appends (fun c => exists k perm rep, In perm perms
                     /\ c = CallUpdate k (grantItem fieldNames perm) rep)
    (assign_loop Srv srv_update fieldNames perms acc).
Proof.
  revert acc. induction perms as [|perm perms IH]; intros acc; simpl.
  - apply appends_ret.
  - apply appends_bind.
    + eapply appends_weaken; [|apply appends_granteeStep].
      intros c (k & rep & ->). exists k, perm, rep. auto.
    + intros line. eapply appends_weaken; [|apply IH].
      intros c (k & p & rep & Hin & ->). exists k, p, rep. auto.
Qed.

Lemma partition_loop_world (rs : list SaveResult) (s f : list string)
    (w w' : World Srv) r :
  partition_loop Srv rs s f w = (r, w') -> w' = w.
Proof.
  revert s f w. induction rs as [|x rs IH]; intros s f w H; simpl in H.
  - unfold ret in H. congruence.
  - destruct (sr_success x); [eapply IH; eauto|].
    unfold bind in H.
    destruct (mapM Srv (message_strict Srv) (errors_list (sr_errors x)) w)
      as [[m|msgs] w1] eqn:E; apply mapM_message_strict_world in E; subst w1;
      [congruence|eapply IH; eauto].
Qed.

Lemma metadata_create_run (items : list JRecord) (w w1 : World Srv) x :
  metadata_create Srv srv_create items w = (x, w1) ->
  exists rep, w_log Srv w1 = (w_log Srv w ++ [CallCreate items rep])%list
    /\ match x with inl _ => True | inr rep' => rep' = rep end.
Proof.
  unfold metadata_create. destruct (srv_create (w_srv Srv w) items) as [rep s'].
  intros H. exists rep.
  destruct rep; cbv [await_reply throw ret] in H; injection H as <- <-; auto.
Qed.

(** [deployFieldsAndPermissions] makes one create call, with one item per
    field in field order, and then only update calls; each grants access to
    exactly the fields whose outcome succeeded, for a requested grantee.
    Without a successful outcome, or without a permission request, it makes
    no update call. *)
Theorem deploy_calls (flds : list FieldDefinition)
    (perms : option (list PermissionAssignment)) (w w' : World Srv) r :
  deployFieldsAndPermissions Srv srv_create srv_update flds perms w = (r, w') ->
  exists rep updates,
    w_log Srv w' = (w_log Srv w ++ CallCreate (map metadataItem flds) rep :: updates)%list
    /\ Forall (fun c => exists k perm rep',
                 In perm (match perms with Some ps => ps | None => [] end)
                 /\ c = CallUpdate k
                        (grantItem (map sr_fullName (filter sr_success (results_of rep))) perm)
                        rep')
              updates
    /\ (filter sr_success (results_of rep) = [] -> updates = []).
Proof.
  intros H. unfold deployFieldsAndPermissions, bind at 1 in H.
  destruct (metadata_create Srv srv_create (map metadataItem flds) w)
    as [[e|rep'] w1] eqn:Ec;
    apply metadata_create_run in Ec as (rep & Hw1 & Hrep).
  - injection H as _ <-. exists rep, []. rewrite Hw1. repeat split; auto.
  - subst rep'. cbv beta in H. unfold bind at 1 in H.
    destruct (partition_loop Srv (results_of rep) [] [] w1) as [[e|[sf ff]] w2] eqn:Ep;
      pose proof Ep as Ew; apply partition_loop_world in Ew; subst w2.
    + injection H as _ <-. exists rep, []. rewrite Hw1. repeat split; auto.
    + apply partition_loop_spec in Ep as (Hsf & _ & _). simpl in Hsf.
      cbv beta in H. unfold bind in H. simpl fst in H. simpl snd in H.
      assert (Hph : appends (fun c => exists k perm rep',
                       In perm (match perms with Some ps => ps | None => [] end)
                       /\ c = CallUpdate k (grantItem sf perm) rep')
                 (match perms, sf with
                  | Some ((_ :: _) as ps), _ :: _ => assignFieldPermissions Srv srv_update sf ps
                  | _, _ => ret Srv EmptyString
                  end)).
      { destruct perms as [[|p ps]|]; [apply appends_ret| |apply appends_ret].
        destruct sf as [|s0 sf']; [apply appends_ret|].
        cbv beta iota. unfold assignFieldPermissions.
        apply appends_bind; [|intros; apply appends_ret].
        eapply appends_weaken; [|apply appends_assign_loop].
        intros c (k & perm & rep' & Hin & ->). exists k, perm, rep'. auto. }
      lazymatch type of H with
      | match ?X with _ => _ end = _ => destruct X as [[e|pr] w3] eqn:Eph
      end;
        pose proof Eph as Eph'; apply Hph in Eph' as (cs & Hl & HF); injection H as _ <-;
        exists rep, cs; rewrite Hl, Hw1, <- app_assoc; subst sf;
        (split; [reflexivity|split; [exact HF|]]);
        intros Hnil; rewrite Hnil in Eph; simpl in Eph;
        destruct perms as [[|p ps]|]; cbv [ret] in Eph; first [discriminate | injection Eph as _ <-];
        apply (app_inv_head (w_log Srv w1)); rewrite app_nil_r; symmetry; exact Hl.
Qed.

End Calls.

(* ------------------------------------------------------------------ *)
(** ** Edge behaviour of exec, the outcome loop and the summary *)

Section Runs.

Variable Srv : Type.
Variable srv_create : Srv -> list JRecord -> Reply * Srv.
Variable srv_update : Srv -> UpdateKind -> UpdateItem -> Reply * Srv.

Lemma existsb_eqb_in (x : string) (l : list string) :
  In x l -> existsb (String.eqb x) l = true.
Proof. intros H. apply existsb_exists. exists x. split; auto. apply String.eqb_refl. Qed.

Lemma existsb_eqb_notin (x : string) (l : list string) :
  ~ In x l -> existsb (String.eqb x) l = false.
Proof.
  intros H. destruct (existsb (String.eqb x) l) eqn:E; auto.
  apply existsb_exists in E as (y & Hy & Heq). apply String.eqb_eq in Heq. subst. contradiction.
Qed.

Lemma partition_loop_undefined (rs : list SaveResult) (s f : list string) (w : World Srv) :
  Exists (fun r => sr_success r = false /\ In ErrUndefined (errors_list (sr_errors r))) rs ->
  partition_loop Srv rs s f w = (inl "Cannot read properties of undefined (reading 'message')", w).
Proof.
  revert s f. induction rs as [|r rs IH]; intros s f HE; [inversion HE|].
  cbn [partition_loop].
  inversion HE as [? ? [Hs Hin]|? ? Hrest]; subst.
  - rewrite Hs. unfold bind. rewrite mapM_message_strict_run.
    replace (existsb _ _) with true; [reflexivity|].
    symmetry. apply existsb_exists. exists ErrUndefined. auto.
  - destruct (sr_success r); [apply IH; exact Hrest|].
    unfold bind. rewrite mapM_message_strict_run.
    destruct (existsb _ _); [reflexivity|]. apply IH. exact Hrest.
Qed.

(** When a failed outcome lists an [undefined] error, reading [e.message]
    in the outcome loop throws: [deployFieldsAndPermissions] rejects with
    that TypeError right after the create call, before any permission
    update. *)
Theorem deploy_undefined_error (flds : list FieldDefinition)
    (perms : option (list PermissionAssignment)) (w : World Srv) (rep : Reply) (s' : Srv) :
  srv_create (w_srv Srv w) (map metadataItem flds) = (rep, s') ->
  Exists (fun r => sr_success r = false /\ In ErrUndefined (errors_list (sr_errors r)))
         (results_of rep) ->
  deployFieldsAndPermissions Srv srv_create srv_update flds perms w
  = (inl "Cannot read properties of undefined (reading 'message')",
     log_call Srv (CallCreate (map metadataItem flds) rep) (with_srv Srv s' w)).
Proof.
  intros Hc HE. unfold deployFieldsAndPermissions, bind at 1, metadata_create.
  rewrite Hc. destruct rep as [m|o|os]; [inversion HE| |];
    cbv [await_reply ret]; unfold bind at 1; rewrite partition_loop_undefined by exact HE;
    reflexivity.
Qed.

(** The summary is empty exactly when there is no success, no failure and
    no permission report. *)
Theorem buildResultSummary_empty (successFields failedFields : list string)
    (permissionResults : string) :
  buildResultSummary successFields failedFields permissionResults = ""
  <-> successFields = [] /\ failedFields = [] /\ permissionResults = "".
Proof.
  split.
  - intros H. destruct successFields, failedFields, permissionResults;
      simpl in H; try discriminate; auto.
  - intros (-> & -> & ->). reflexivity.
Qed.

(** A grantee whose PermissionSet update resolves to a first result with
    [success: true] gets the PermissionSet line after that single call: no
    Profile call is made. *)
Theorem granteeStep_permset_success (fieldNames : list string) (perm : PermissionAssignment)
    (w : World Srv) (rep : Reply) (s : Srv) (r : SaveResult) :
  srv_update (w_srv Srv w) PermissionSet (grantItem fieldNames perm) = (rep, s) ->
  (rep = One r \/ exists rs, rep = Many (r :: rs)) ->
  sr_success r = true ->
  granteeStep Srv srv_update fieldNames perm w
  = (inr (permSetLine (permissionSetOrProfile perm)),
     log_call Srv (CallUpdate PermissionSet (grantItem fieldNames perm) rep) (with_srv Srv s w)).
Proof.
  intros Hu Hrep Hs. unfold grantItem in *.
  unfold granteeStep, granteeBody, try_catch, bind, metadata_update.
  cbv beta. rewrite Hu.
  destruct Hrep as [->|[rs ->]]; cbn -[profileAttempt]; rewrite Hs; reflexivity.
Qed.

(** [exec] rejects (rather than returning a tool result) exactly when a
    username is given and [process.chdir] fails, which sits outside the
    [try]; it then leaves the world as it was: no resolution and no
    remote call. *)
Theorem exec_rejection (input : InputArgs) (w : World Srv) :
  (forall e w', exec Srv srv_create srv_update input w = (inl e, w') ->
     w' = w /\ falsy_string (usernameOrAlias input) = false
     /\ ~ In (directory input) (w_dirs Srv w))
  /\ (falsy_string (usernameOrAlias input) = false -> ~ In (directory input) (w_dirs Srv w) ->
      exists e, exec Srv srv_create srv_update input w = (inl e, w)).
Proof.
  unfold exec. destruct (falsy_string (usernameOrAlias input)) eqn:Hf.
  - split; [intros e w' H; discriminate H | intros H; discriminate H].
  - unfold bind at 1, chdir.
    destruct (existsb (String.eqb (directory input)) (w_dirs Srv w)) eqn:Hd.
    + split.
      * intros e w' H. unfold try_catch in H.
        lazymatch type of H with
        | match ?X with _ => _ end = _ => destruct X as [[e1|a1] w1]
        end; discriminate H.
      * intros _ Hn. exfalso. apply Hn.
        apply existsb_exists in Hd as (y & Hy & Heq). apply String.eqb_eq in Heq. congruence.
    + split.
      * intros e w' H. injection H as _ <-. split; [reflexivity|]. split; [reflexivity|].
        intros Hin. apply existsb_eqb_in in Hin. congruence.
      * intros _ _. unfold bind, chdir. rewrite Hd. eexists. reflexivity.
Qed.

Lemma exec_run (input : InputArgs) (w : World Srv) (u : string) :
  usernameOrAlias input = Some u -> u <> EmptyString ->
  In (directory input) (w_dirs Srv w) -> In u (w_orgs Srv w) ->
  exec Srv srv_create srv_update input w =
    match deployFieldsAndPermissions Srv srv_create srv_update (fields input) (permissions input)
            {| w_cwd := directory input; w_dirs := w_dirs Srv w; w_orgs := w_orgs Srv w;
               w_srv := w_srv Srv w; w_log := (w_log Srv w ++ [CallResolve u])%list |} with
    | (inl msg, w') => (inr (textResponse ("Failed to create custom fields: " ++ msg) true), w')
    | res => res
    end.
Proof.
  intros Hu Hne Hd Ho. unfold exec. rewrite Hu.
  destruct u as [|c u']; [congruence|]. cbn [falsy_string].
  unfold bind at 1, chdir. rewrite (existsb_eqb_in _ _ Hd).
  unfold try_catch, bind at 1, getConnection. cbn [w_orgs nullish].
  rewrite (existsb_eqb_in _ _ Ho). unfold log_call. cbn [w_cwd w_dirs w_orgs w_srv w_log].
  destruct (deployFieldsAndPermissions _ _ _ _ _ _) as [[e|a] w'] eqn:E; reflexivity.
Qed.

(** When the create call itself rejects with a message, [exec] reports
    ["Failed to create custom fields: "] followed by that message, with the
    error flag, and makes no update call. *)
Theorem exec_create_rejected (input : InputArgs) (w : World Srv) (u m : string) (s' : Srv) :
  usernameOrAlias input = Some u -> u <> EmptyString ->
  In (directory input) (w_dirs Srv w) -> In u (w_orgs Srv w) ->
  srv_create (w_srv Srv w) (map metadataItem (fields input)) = (Throws m, s') ->
  exec Srv srv_create srv_update input w
  = (inr (textResponse ("Failed to create custom fields: " ++ m) true),
     {| w_cwd := directory input; w_dirs := w_dirs Srv w; w_orgs := w_orgs Srv w;
        w_srv := s';
        w_log := (w_log Srv w ++ [CallResolve u;
                                  CallCreate (map metadataItem (fields input)) (Throws m)])%list |}).
Proof.
  intros Hu Hne Hd Ho Hc. rewrite (exec_run input w u Hu Hne Hd Ho).
  unfold deployFieldsAndPermissions, bind at 1, metadata_create. cbn [w_srv].
  rewrite Hc. cbv [await_reply throw log_call with_srv]. cbn [w_cwd w_dirs w_orgs w_srv w_log].
  rewrite <- app_assoc. reflexivity.
Qed.

(** [!input.usernameOrAlias] also holds for the empty string: an empty
    username is refused like a missing one, with no effect. *)
Theorem exec_empty_username (input : InputArgs) (w : World Srv) :
  usernameOrAlias input = Some EmptyString ->
  exec Srv srv_create srv_update input w
  = (inr (textResponse usernameRequiredMessage true), w).
Proof. intros H. unfold exec. rewrite H. reflexivity. Qed.

End Runs.

(* ------------------------------------------------------------------ *)
(** ** Concrete runs *)

(** A Picklist with [[{value:"A", isDefault:true}, {value:"B"}]]. *)
Lemma picklist_valueSet_witness :
  (type (plainField "Object" "Status" Picklist (Some picklistAB)) = Picklist
   \/ type (plainField "Object" "Status" Picklist (Some picklistAB)) = MultiselectPicklist)
  /\ picklistValues (plainField "Object" "Status" Picklist (Some picklistAB)) = Some picklistAB
  /\ picklistAB <> []
  /\ js_get (buildFieldMetadata (plainField "Object" "Status" Picklist (Some picklistAB)))
       "valueSet"
     = Some (JObj [("restricted", JBool true);
                   ("valueSetDefinition",
                     JObj [("sorted", JBool false);
                           ("value",
                             JArr [JObj [("fullName", JStr "A"); ("default", JBool true);
                                         ("label", JStr "A")];
                                   JObj [("fullName", JStr "B"); ("default", JBool false);
                                         ("label", JStr "B")]])])]).
Proof.
  split; [left; reflexivity|]. split; [reflexivity|]. split; [discriminate|].
  apply (picklist_valueSet (plainField "Object" "Status" Picklist (Some picklistAB)) picklistAB);
    [left; reflexivity | reflexivity | discriminate].
Defined.


Lemma exec_missing_username_witness :
  usernameOrAlias inputWithoutUser = None
  /\ (let (res, w') := exec (list Reply) script_create script_update inputWithoutUser
                          (scriptWorld [One (okResult "Object.Foo__c")]) in
      res = inr {| content_text := usernameRequiredMessage; isError := true |}
      /\ w_log (list Reply) w' = w_log (list Reply) (scriptWorld [One (okResult "Object.Foo__c")])
      /\ w_srv (list Reply) w' = w_srv (list Reply) (scriptWorld [One (okResult "Object.Foo__c")])).
Proof.
  split; [reflexivity|].
  apply (exec_missing_username (list Reply) script_create script_update inputWithoutUser
           (scriptWorld [One (okResult "Object.Foo__c")])).
  reflexivity.
Defined.

Lemma exec_missing_username_cwd_witness :
  usernameOrAlias inputWithoutUser = None
  /\ w_cwd (list Reply) (snd (exec (list Reply) script_create script_update inputWithoutUser
                                (scriptWorld [])))
     = w_cwd (list Reply) (scriptWorld []).
Proof.
  split; [reflexivity|].
  apply (exec_missing_username_cwd (list Reply) script_create script_update
           inputWithoutUser (scriptWorld [])).
  reflexivity.
Defined.

(** Three fields of which the org rejects one: the error flag is set. *)
Lemma deploy_error_flag_witness :
  exists r w',
    deployFieldsAndPermissions (list Reply) script_create script_update
      (plainField "Object" "Baz" Text None :: twoFields) (Some [salesTeam])
      (scriptWorld [Many [okResult "Object.Baz__c"; okResult "Object.Foo__c";
                          failResult "Object.Bar__c" "DUPLICATE_DEVELOPER_NAME"];
                    Throws "INVALID_TYPE"; One (okResult "SalesTeam")])
    = (inr r, w')
    /\ isError r = true
    /\ exists rep w1 successFields failedFields,
         metadata_create (list Reply) script_create
           (map metadataItem (plainField "Object" "Baz" Text None :: twoFields))
           (scriptWorld [Many [okResult "Object.Baz__c"; okResult "Object.Foo__c";
                               failResult "Object.Bar__c" "DUPLICATE_DEVELOPER_NAME"];
                         Throws "INVALID_TYPE"; One (okResult "SalesTeam")])
         = (inr rep, w1)
         /\ partition_loop (list Reply) (results_of rep) [] [] w1
              = (inr (successFields, failedFields), w1)
         /\ (isError r = true <-> failedFields <> [])
         /\ (exists r0 w0,
               deployFieldsAndPermissions (list Reply) script_create script_update
                 (plainField "Object" "Baz" Text None :: twoFields) None
                 (scriptWorld [Many [okResult "Object.Baz__c"; okResult "Object.Foo__c";
                                     failResult "Object.Bar__c" "DUPLICATE_DEVELOPER_NAME"];
                               Throws "INVALID_TYPE"; One (okResult "SalesTeam")])
               = (inr r0, w0) /\ isError r0 = isError r).
Proof.
  eexists _, _. split; [vm_compute; reflexivity|]. split; [vm_compute; reflexivity|].
  eapply (deploy_error_flag (list Reply) script_create script_update
            (plainField "Object" "Baz" Text None :: twoFields) (Some [salesTeam])).
  cbv. reflexivity.
Defined.

(** Two fields; the org answers in the reverse order and rejects Bar. *)
Lemma partition_by_returned_outcomes_witness :
  partition_loop (list Reply)
    (results_of (Many [failResult "Object.Bar__c" "DUPLICATE_DEVELOPER_NAME";
                       okResult "Object.Foo__c"])) [] [] (scriptWorld [])
  = (inr (["Object.Foo__c"], ["Object.Bar__c: DUPLICATE_DEVELOPER_NAME"]), scriptWorld [])
  /\ Permutation (["Object.Foo__c"] ++ ["Object.Bar__c"])%list (map itemFullName twoFields).
Proof.
  destruct (partition_by_returned_outcomes (list Reply) twoFields
              (Many [failResult "Object.Bar__c" "DUPLICATE_DEVELOPER_NAME";
                     okResult "Object.Foo__c"]) (scriptWorld []))
    as (_ & _ & _ & Hrun & Hperm).
  - intros m. discriminate.
  - vm_compute. apply perm_swap.
  - repeat constructor; simpl; [intros _ [H|[]]; discriminate | discriminate].
  - split; [exact Hrun | exact Hperm].
Defined.

(** The grantee SalesTeam: the PermissionSet update rejects, the Profile
    update succeeds. *)
Lemma granteeStep_fallback_witness :
  script_update [Throws "INVALID_CROSS_REFERENCE_KEY"; One (okResult "SalesTeam")]
    PermissionSet (grantItem ["Object.Foo__c"] salesTeam)
  = (Throws "INVALID_CROSS_REFERENCE_KEY", [One (okResult "SalesTeam")])
  /\ kindA_declined (Throws "INVALID_CROSS_REFERENCE_KEY") = true
  /\ exists retries repB,
       w_log (list Reply) (snd (granteeStep (list Reply) script_update ["Object.Foo__c"] salesTeam
           (scriptWorld [Throws "INVALID_CROSS_REFERENCE_KEY"; One (okResult "SalesTeam")])))
       = (w_log (list Reply)
            (scriptWorld [Throws "INVALID_CROSS_REFERENCE_KEY"; One (okResult "SalesTeam")])
          ++ [CallUpdate PermissionSet (grantItem ["Object.Foo__c"] salesTeam)
                (Throws "INVALID_CROSS_REFERENCE_KEY")]
          ++ retries
          ++ [CallUpdate Profile (grantItem ["Object.Foo__c"] salesTeam) repB])%list
       /\ fst (granteeStep (list Reply) script_update ["Object.Foo__c"] salesTeam
                (scriptWorld [Throws "INVALID_CROSS_REFERENCE_KEY"; One (okResult "SalesTeam")]))
          = inr (kindB_outcome_line (permissionSetOrProfile salesTeam) repB)
       /\ Forall (fun c => exists rep, c = CallUpdate Profile (grantItem ["Object.Foo__c"] salesTeam) rep)
                 retries
       /\ (List.length retries <= 1)%nat.
Proof.
  split; [reflexivity|]. split; [reflexivity|].
  apply (granteeStep_fallback (list Reply) script_update ["Object.Foo__c"] salesTeam
           (scriptWorld [Throws "INVALID_CROSS_REFERENCE_KEY"; One (okResult "SalesTeam")])
           (Throws "INVALID_CROSS_REFERENCE_KEY") [One (okResult "SalesTeam")]);
    reflexivity.
Defined.

(** Both updates for SalesTeam reject: the failure line carries the
    message of the Profile rejection. *)
Lemma assignFieldPermissions_lines_witness :
  granteeBody (list Reply) script_update ["Object.Foo__c"] salesTeam
    (scriptWorld [Throws "INVALID_TYPE"; Throws "UNKNOWN_EXCEPTION"])
  = (inl "UNKNOWN_EXCEPTION",
     snd (granteeBody (list Reply) script_update ["Object.Foo__c"] salesTeam
            (scriptWorld [Throws "INVALID_TYPE"; Throws "UNKNOWN_EXCEPTION"])))
  /\ granteeStep (list Reply) script_update ["Object.Foo__c"] salesTeam
       (scriptWorld [Throws "INVALID_TYPE"; Throws "UNKNOWN_EXCEPTION"])
     = (inr (failureLine "SalesTeam" "UNKNOWN_EXCEPTION"),
        snd (granteeBody (list Reply) script_update ["Object.Foo__c"] salesTeam
               (scriptWorld [Throws "INVALID_TYPE"; Throws "UNKNOWN_EXCEPTION"]))).
Proof.
  assert (H : granteeBody (list Reply) script_update ["Object.Foo__c"] salesTeam
                (scriptWorld [Throws "INVALID_TYPE"; Throws "UNKNOWN_EXCEPTION"])
              = (inl "UNKNOWN_EXCEPTION",
                 snd (granteeBody (list Reply) script_update ["Object.Foo__c"] salesTeam
                        (scriptWorld [Throws "INVALID_TYPE"; Throws "UNKNOWN_EXCEPTION"]))))
    by (vm_compute; reflexivity).
  split; [exact H|].
  exact (proj2 (assignFieldPermissions_lines (list Reply) script_update ["Object.Foo__c"]
                  [salesTeam] (scriptWorld [Throws "INVALID_TYPE"; Throws "UNKNOWN_EXCEPTION"]))
           salesTeam _ _ _ H).
Defined.

(** Payload attributes of concrete fields. *)
Lemma text_length_default_witness :
  js_get (buildFieldMetadata (plainField "Object" "Code" Text None)) "length"
  = Some (JNum 255).
Proof. apply (text_length_default (plainField "Object" "Code" Text None)). left; reflexivity. Defined.

Lemma numeric_precision_scale_witness :
  js_get (buildFieldMetadata (plainField "Object" "Amount" Currency None)) "precision"
    = Some (JNum 18)
  /\ js_get (buildFieldMetadata (plainField "Object" "Amount" Currency None)) "scale"
    = Some (JNum 2).
Proof.
  apply (numeric_precision_scale (plainField "Object" "Amount" Currency None)).
  right; left; reflexivity.
Defined.

Lemma longtext_defaults_witness :
  js_get (buildFieldMetadata (plainField "Object" "Notes" RichTextArea None)) "length"
    = Some (JNum 32768)
  /\ js_get (buildFieldMetadata (plainField "Object" "Notes" RichTextArea None)) "visibleLines"
    = Some (JNum 6).
Proof.
  apply (longtext_defaults (plainField "Object" "Notes" RichTextArea None)).
  right; reflexivity.
Defined.

Lemma picklist_visibleLines_witness :
  js_get (buildFieldMetadata (plainField "Object" "Tags" MultiselectPicklist (Some picklistAB)))
    "visibleLines" = Some (JNum 4).
Proof.
  apply (proj1 (picklist_visibleLines
                  (plainField "Object" "Tags" MultiselectPicklist (Some picklistAB)))).
  reflexivity.
Defined.

Lemma lookup_defaults_witness :
  js_get (buildFieldMetadata (plainField "Contact" "Account" Lookup None)) "referenceTo" = None
  /\ js_get (buildFieldMetadata (plainField "Contact" "Account" Lookup None)) "relationshipName"
    = Some (JStr "Accounts")
  /\ js_get (buildFieldMetadata (plainField "Contact" "Account" Lookup None)) "relationshipLabel"
    = Some (JStr "Accounts")
  /\ js_get (buildFieldMetadata (plainField "Contact" "Account" Lookup None)) "deleteConstraint"
    = Some (JStr "SetNull").
Proof. apply (lookup_defaults (plainField "Contact" "Account" Lookup None)). reflexivity. Defined.

Lemma masterDetail_defaults_witness :
  js_get (buildFieldMetadata (plainField "Line" "Order" MasterDetail None)) "referenceTo" = None
  /\ js_get (buildFieldMetadata (plainField "Line" "Order" MasterDetail None)) "relationshipName"
    = Some (JStr "Orders")
  /\ js_get (buildFieldMetadata (plainField "Line" "Order" MasterDetail None)) "relationshipLabel"
    = Some (JStr "Orders")
  /\ js_get (buildFieldMetadata (plainField "Line" "Order" MasterDetail None)) "deleteConstraint"
    = None.
Proof. apply (masterDetail_defaults (plainField "Line" "Order" MasterDetail None)). reflexivity. Defined.

Lemma simple_types_keys_witness :
  map fst (buildFieldMetadata (plainField "Object" "Active" Checkbox None))
  = ["label"; "type"; "required"; "unique"; "externalId"].
Proof.
  apply (simple_types_keys (plainField "Object" "Active" Checkbox None)). simpl. auto.
Defined.

(** Two fields, one rejected, one grantee whose PermissionSet update
    succeeds. *)
Lemma deploy_calls_witness :
  exists rep updates,
    w_log (list Reply)
      (snd (deployFieldsAndPermissions (list Reply) script_create script_update
              twoFields (Some [salesTeam])
              (scriptWorld [Many [okResult "Object.Foo__c";
                                  failResult "Object.Bar__c" "DUPLICATE_DEVELOPER_NAME"];
                            One (okResult "SalesTeam")])))
    = (w_log (list Reply)
         (scriptWorld [Many [okResult "Object.Foo__c";
                             failResult "Object.Bar__c" "DUPLICATE_DEVELOPER_NAME"];
                       One (okResult "SalesTeam")])
       ++ CallCreate (map metadataItem twoFields) rep :: updates)%list
    /\ Forall (fun c => exists k perm rep',
                 In perm [salesTeam]
                 /\ c = CallUpdate k
                        (grantItem (map sr_fullName (filter sr_success (results_of rep))) perm)
                        rep')
              updates
    /\ (filter sr_success (results_of rep) = [] -> updates = []).
Proof.
  apply (deploy_calls (list Reply) script_create script_update twoFields (Some [salesTeam])
           (scriptWorld [Many [okResult "Object.Foo__c";
                               failResult "Object.Bar__c" "DUPLICATE_DEVELOPER_NAME"];
                         One (okResult "SalesTeam")])
           (snd (deployFieldsAndPermissions (list Reply) script_create script_update
                   twoFields (Some [salesTeam])
                   (scriptWorld [Many [okResult "Object.Foo__c";
                                       failResult "Object.Bar__c" "DUPLICATE_DEVELOPER_NAME"];
                                 One (okResult "SalesTeam")])))
           (fst (deployFieldsAndPermissions (list Reply) script_create script_update
                   twoFields (Some [salesTeam])
                   (scriptWorld [Many [okResult "Object.Foo__c";
                                       failResult "Object.Bar__c" "DUPLICATE_DEVELOPER_NAME"];
                                 One (okResult "SalesTeam")])))).
  vm_compute. reflexivity.
Defined.

Lemma deploy_undefined_error_witness :
  deployFieldsAndPermissions (list Reply) script_create script_update twoFields (Some [salesTeam])
    (scriptWorld [Many [okResult "Object.Foo__c"; undefinedErrResult "Object.Bar__c"]])
  = (inl "Cannot read properties of undefined (reading 'message')",
     log_call (list Reply)
       (CallCreate (map metadataItem twoFields)
          (Many [okResult "Object.Foo__c"; undefinedErrResult "Object.Bar__c"]))
       (with_srv (list Reply) []
          (scriptWorld [Many [okResult "Object.Foo__c"; undefinedErrResult "Object.Bar__c"]]))).
Proof.
  apply deploy_undefined_error; [reflexivity|].
  right. left. split; [reflexivity|]. simpl. auto.
Defined.

Lemma granteeStep_permset_success_witness :
  granteeStep (list Reply) script_update ["Object.Foo__c"] salesTeam
    (scriptWorld [Many [okResult "SalesTeam"; failResult "SalesTeam" "UNKNOWN_EXCEPTION"]])
  = (inr (permSetLine "SalesTeam"),
     log_call (list Reply)
       (CallUpdate PermissionSet (grantItem ["Object.Foo__c"] salesTeam)
          (Many [okResult "SalesTeam"; failResult "SalesTeam" "UNKNOWN_EXCEPTION"]))
       (with_srv (list Reply) []
          (scriptWorld [Many [okResult "SalesTeam"; failResult "SalesTeam" "UNKNOWN_EXCEPTION"]]))).
Proof.
  apply (granteeStep_permset_success (list Reply) script_update ["Object.Foo__c"] salesTeam
           (scriptWorld [Many [okResult "SalesTeam"; failResult "SalesTeam" "UNKNOWN_EXCEPTION"]])
           (Many [okResult "SalesTeam"; failResult "SalesTeam" "UNKNOWN_EXCEPTION"]) []
           (okResult "SalesTeam")).
  - reflexivity.
  - right. eexists. reflexivity.
  - reflexivity.
Defined.

Lemma exec_create_rejected_witness :
  exec (list Reply) script_create script_update inputWithUser
    (scriptWorld [Throws "INVALID_SESSION_ID"])
  = (inr (textResponse ("Failed to create custom fields: " ++ "INVALID_SESSION_ID") true),
     {| w_cwd := "/home/user/project"; w_dirs := ["/home/user"; "/home/user/project"];
        w_orgs := ["admin@example.com"]; w_srv := [];
        w_log := [CallResolve "admin@example.com";
                  CallCreate (map metadataItem twoFields) (Throws "INVALID_SESSION_ID")] |}).
Proof.
  apply (exec_create_rejected (list Reply) script_create script_update inputWithUser
           (scriptWorld [Throws "INVALID_SESSION_ID"]) "admin@example.com");
    [reflexivity | discriminate | simpl; auto | simpl; auto | reflexivity].
Defined.

Lemma exec_empty_username_witness :
  exec (list Reply) script_create script_update inputEmptyUser (scriptWorld [])
  = (inr (textResponse usernameRequiredMessage true), scriptWorld []).
Proof. apply exec_empty_username. reflexivity. Defined.
